(** * hypothesis.extra.numpy: strategies for numpy dtypes, shapes and arrays

    A shallow embedding of [src/hypothesis/extra/numpy.py] and the proofs of
    the properties its specification states.

    Python values are a small universe [pyval]; a function that can raise
    returns a [result]; the random-input stream [data] that [do_draw] mutates
    is passed explicitly; strategies are a first-order syntax whose
    combinators are the ones the module calls from [hypothesis.strategies]. *)

From Stdlib Require Import ZArith Ascii String DecimalString Sorted.
From stdpp Require Import list strings.

Local Open Scope string_scope.
Local Open Scope Z_scope.

(** ** Exceptions and results *)

Inductive exn :=
| InvalidArgument (msg : string)   (* hypothesis.errors.InvalidArgument *)
| TypeError (msg : string)
| IndexError (msg : string)
| KeyError (key : string)
| ValueError (msg : string)
| AttributeError (msg : string)
| AssertionError.

Inductive result (A : Type) :=
| Ok (a : A)
| Raise (e : exn).
Arguments Ok {A} a.
Arguments Raise {A} e.

Definition bind {A B} (r : result A) (k : A -> result B) : result B :=
  match r with
  | Ok a => k a
  | Raise e => Raise e
  end.

Notation "'do' x <- r ; k" := (bind r (fun x => k))
  (at level 10, x name, r at level 100, k at level 200).
Notation "'run' r ; k" := (bind r (fun _ => k))
  (at level 10, r at level 100, k at level 200).

Definition is_invalid_argument {A} (r : result A) : bool :=
  match r with
  | Raise (InvalidArgument _) => true
  | _ => false
  end.

(** ** Type descriptors *)

(** The attributes of [np.dtype] that the module reads: [kind], [itemsize]
    (bytes), and [name], the text [str(dtype)] prints for a scalar type. *)
Record Dtype := {
  kind : string;
  itemsize : Z;
  name : string
}.

(** ** Python values *)

(** Host values the module only passes along (floats, complex numbers, byte
    strings) are carried by their type and printed form. *)
Inductive host_type := HFloat | HComplex | HBytes.

#[warning="-register-all"] Inductive pyval :=
| VNone
| VBool (b : bool)
| VInt (z : Z)
| VNegInf                                   (* -np.inf *)
| VStr (s : string)
| VOpaque (t : host_type) (repr : string)
| VTuple (items : list pyval)
| VList (items : list pyval)
| VDtype (d : Dtype)
| VScalar (d : Dtype) (v : pyval)           (* dtype.type(v) *)
| VUninit                                   (* a cell of np.empty not yet assigned *)
| VArray (d : Dtype) (shape : list Z) (flat : list pyval).

(** Truth value of an object, as [if not x] tests it. *)
Definition truthy (v : pyval) : bool :=
  match v with
  | VNone => false
  | VBool b => b
  | VInt z => negb (z =? 0)
  | VStr s => negb (String.eqb s "")
  | VTuple l | VList l => match l with [] => false | _ => true end
  | _ => true
  end.

(** Decimal text of an integer, as [str] and [repr] print it. *)
Definition str_int (z : Z) : string := NilZero.string_of_int (Z.to_int z).

Fixpoint join (sep : string) (l : list string) : string :=
  match l with
  | [] => ""
  | [x] => x
  | x :: rest => x +:+ sep +:+ join sep rest
  end.

(** [repr(v)]: strings are quoted, a one-element tuple keeps its comma. *)
Fixpoint py_repr (v : pyval) : string :=
  match v with
  | VNone => "None"
  | VBool true => "True"
  | VBool false => "False"
  | VInt z => str_int z
  | VNegInf => "-inf"
  | VStr s => "'" +:+ s +:+ "'"
  | VOpaque _ r => r
  | VTuple [x] => "(" +:+ py_repr x +:+ ",)"
  | VTuple l => "(" +:+ join ", " (map py_repr l) +:+ ")"
  | VList l => "[" +:+ join ", " (map py_repr l) +:+ "]"
  | VDtype d => "dtype('" +:+ name d +:+ "')"
  | VScalar _ x => py_repr x
  | VUninit => "?"
  | VArray _ _ l => "array([" +:+ join ", " (map py_repr l) +:+ "])"
  end.

(** [str(v)]: as [repr] but for strings and dtypes. *)
Definition py_str (v : pyval) : string :=
  match v with
  | VStr s => s
  | VDtype d => name d
  | _ => py_repr v
  end.

(** ** [str.format]

    The templates of this module use automatically numbered fields [{}] and
    named fields [{name}]; [{{] and [}}] are the escaped braces.  A field
    beyond the positional arguments raises [IndexError], an unknown name
    [KeyError], a stray brace [ValueError]. *)

Fixpoint lookup_kw (k : string) (kw : list (string * pyval)) : option pyval :=
  match kw with
  | [] => None
  | (k', v) :: rest => if String.eqb k k' then Some v else lookup_kw k rest
  end.

(** Splits [s] at its first closing brace: the field name and what follows. *)
Fixpoint split_field (s : string) : option (string * string) :=
  match s with
  | EmptyString => None
  | String c rest =>
      if Ascii.eqb c "}"%char then Some (EmptyString, rest)
      else match split_field rest with
           | Some (fld, tail) => Some (String c fld, tail)
           | None => None
           end
  end.

(** [fuel] bounds the number of characters still to read; [format] gives
    the length of the template. *)
Fixpoint format_go (fuel : nat) (s : string) (args : list pyval)
    (kw : list (string * pyval)) : result string :=
  match fuel with
  | O => Ok EmptyString
  | S fuel =>
      match s with
      | EmptyString => Ok EmptyString
      | String c rest =>
          if Ascii.eqb c "{"%char then
            match rest with
            | String c' rest' =>
                if Ascii.eqb c' "{"%char then
                  do out <- format_go fuel rest' args kw; Ok (String "{"%char out)
                else
                  match split_field rest with
                  | None => Raise (ValueError "expected '}' before end of string")
                  | Some (EmptyString, tail) =>
                      match args with
                      | [] => Raise (IndexError "tuple index out of range")
                      | a :: args' =>
                          do out <- format_go fuel tail args' kw;
                          Ok (py_str a +:+ out)
                      end
                  | Some (fld, tail) =>
                      match lookup_kw fld kw with
                      | None => Raise (KeyError fld)
                      | Some a =>
                          do out <- format_go fuel tail args kw;
                          Ok (py_str a +:+ out)
                      end
                  end
            | EmptyString => Raise (ValueError "Single '{' encountered in format string")
            end
          else if Ascii.eqb c "}"%char then
            match rest with
            | String c' rest' =>
                if Ascii.eqb c' "}"%char then
                  do out <- format_go fuel rest' args kw; Ok (String "}"%char out)
                else Raise (ValueError "Single '}' encountered in format string")
            | EmptyString => Raise (ValueError "Single '}' encountered in format string")
            end
          else
            do out <- format_go fuel rest args kw; Ok (String c out)
      end
  end.

Definition format (template : string) (args : list pyval)
    (kw : list (string * pyval)) : result string :=
  format_go (String.length template) template args kw.

(** ** Calls of [check_argument]

    [def check_argument(condition, fail_message, *f_args, **f_kwargs)]. *)

Definition py_format (fail_message : pyval) (f_args : list pyval)
    (f_kwargs : list (string * pyval)) : result string :=
  match fail_message with
  | VStr template => format template f_args f_kwargs
  | _ => Raise (AttributeError "object has no attribute 'format'")
  end.

Definition check_argument (condition fail_message : pyval)
    (f_args : list pyval) (f_kwargs : list (string * pyval)) : result unit :=
  if negb (truthy condition) then
    do msg <- py_format fail_message f_args f_kwargs;
    Raise (InvalidArgument msg)
  else Ok tt.

Definition has_key (k : string) (kw : list (string * pyval)) : bool :=
  match lookup_kw k kw with Some _ => true | None => false end.

Definition drop_key (k : string) (kw : list (string * pyval))
    : list (string * pyval) :=
  filter (fun p => negb (String.eqb k (fst p))) kw.

(** The two [TypeError]s of argument binding, in the wording of Python 3. *)
Definition multiple_values (param : string) : exn :=
  TypeError ("check_argument() got multiple values for argument '"
             +:+ param +:+ "'").

Definition missing_argument (param : string) : exn :=
  TypeError ("check_argument() missing 1 required positional argument: '"
             +:+ param +:+ "'").

(** How Python binds the arguments of a call of [check_argument] with the
    positional arguments [pos] and the keyword arguments [kw]:
    positional arguments fill [condition] and [fail_message] in this order
    and the rest is [f_args]; a keyword that names a parameter already
    filled is a [TypeError], as is a parameter left without a value; the
    other keywords are [f_kwargs]. *)
Definition call_check_argument (pos : list pyval)
    (kw : list (string * pyval)) : result unit :=
  match pos with
  | condition :: fail_message :: f_args =>
      if has_key "condition" kw then Raise (multiple_values "condition")
      else if has_key "fail_message" kw then
        Raise (multiple_values "fail_message")
      else check_argument condition fail_message f_args kw
  | [condition] =>
      if has_key "condition" kw then Raise (multiple_values "condition")
      else match lookup_kw "fail_message" kw with
           | None => Raise (missing_argument "fail_message")
           | Some fail_message =>
               check_argument condition fail_message []
                 (drop_key "fail_message" kw)
           end
  | [] =>
      match lookup_kw "condition" kw, lookup_kw "fail_message" kw with
      | Some condition, Some fail_message =>
          check_argument condition fail_message []
            (drop_key "condition" (drop_key "fail_message" kw))
      | None, _ => Raise (missing_argument "condition")
      | _, None => Raise (missing_argument "fail_message")
      end
  end.

(** ** [order_check] *)

(** A lower bound: an integer, or [-np.inf] when [floor is None]. *)
Inductive bound := NegInf | Fin (z : Z).

Definition bound_val (b : bound) : pyval :=
  match b with NegInf => VNegInf | Fin z => VInt z end.

(** [b > z] *)
Definition bound_gt (b : bound) (z : Z) : bool :=
  match b with NegInf => false | Fin f => f >? z end.

Definition order_check_message : string :=
  "min_{name} was {}, must be at least {} and not more than max_{name} (was {})".

Definition order_check (name : string) (floor : option Z) (small large : Z)
    : result unit :=
  let floor := match floor with None => NegInf | Some f => Fin f end in
  if bound_gt floor small && (small >? large) then
    call_check_argument
      [VStr order_check_message; VInt small; bound_val floor; VInt large]
      [("name", VStr name); ("condition", VBool false)]
  else Ok tt.

(** ** Strategies

    The functions the module maps over a strategy, and the combinators of
    [hypothesis.strategies] it builds strategies with. *)

(** The functions the module gives to [.map]. *)
Inductive map_fn :=
| FDtypeType (d : Dtype)          (* dtype.type *)
| FTuple                          (* tuple *)
| FNpDtype                        (* np.dtype *)
| FFormat (template : string).    (* template.format *)

(** Modelled from the spec: the strategies of [hypothesis.strategies] are
    not part of this module.  They are kept as syntax, one constructor for
    each combinator the module calls and one for the module's own
    [ArrayStrategy]; what each of the library's can produce is [draws]
    below, and [st_integers] and [st_lists] are the two calls that check
    their arguments. *)
#[warning="-register-all"] Inductive strategy :=
| Booleans                                        (* st.booleans() *)
| Floats                                          (* st.floats() *)
| ComplexNumbers                                  (* st.complex_numbers() *)
| Binary                                          (* st.binary() *)
| Text                                            (* st.text() *)
| Integers (min_value max_value : Z)              (* st.integers(lo, hi) *)
| Just (v : pyval)                                (* st.just(v) *)
| SampledFrom (elements : list pyval)             (* st.sampled_from(l) *)
| OneOf (alternatives : list strategy)            (* st.one_of(..), a | b *)
| Lists (elements : strategy) (min_size max_size : Z)
| Map (f : map_fn) (s : strategy)                 (* s.map(f) *)
| ArrayStrategy (element_strategy : strategy) (shape : list Z)
    (array_size : Z) (dtype : Dtype).

(** Modelled from the spec: [st.integers] is a function of
    [hypothesis.strategies], which is not part of this module.  The
    specification asks of it a bounded-integer generator, and has one
    error, [InvalidArgument], for an invalid configuration: the library
    raises it for bounds that are out of order, and returns the strategy
    otherwise. *)
Definition st_integers (min_value max_value : Z) : result strategy :=
  if min_value >? max_value then
    Raise (InvalidArgument
      ("Cannot have max_value=" +:+ str_int max_value +:+
       " < min_value=" +:+ str_int min_value))
  else Ok (Integers min_value max_value).

(** Modelled from the spec: [st.lists] is a function of
    [hypothesis.strategies], which is not part of this module.  The
    specification asks of it a generator of lists within size bounds; the
    library raises [InvalidArgument] for a negative size and for sizes that
    are out of order, and returns the strategy otherwise. *)
Definition st_lists (elements : strategy) (min_size max_size : Z)
    : result strategy :=
  if min_size <? 0 then
    Raise (InvalidArgument
      ("Invalid size min_size=" +:+ str_int min_size +:+ " < 0"))
  else if max_size <? 0 then
    Raise (InvalidArgument
      ("Invalid size max_size=" +:+ str_int max_size +:+ " < 0"))
  else if min_size >? max_size then
    Raise (InvalidArgument
      ("Cannot have max_size=" +:+ str_int max_size +:+
       " < min_size=" +:+ str_int min_size))
  else Ok (Lists elements min_size max_size).

Arguments st_integers : simpl never.
Arguments st_lists : simpl never.

(** ** [np.dtype] on type strings *)

Definition parse_digits (s : string) : option Z :=
  match s with
  | EmptyString => None
  | _ => Z.of_uint <$> NilEmpty.uint_of_string s
  end.

Definition is_order_char (c : ascii) : bool :=
  existsb (Ascii.eqb c) ["<"; ">"; "="; "|"]%char.

(** The array-protocol type strings [<order><kind><bytes>] for the numeric
    kinds with the widths numpy has on x86-64, ["?"] for booleans and ["O"]
    for objects.  numpy understands more type strings than these; they are
    answered with [TypeError] here, and nothing below depends on them. *)
Definition np_dtype_code (code : string) : result Dtype :=
  if String.eqb code "?" then
    Ok {| kind := "b"; itemsize := 1; name := "bool" |}
  else if String.eqb code "O" then
    Ok {| kind := "O"; itemsize := 8; name := "object" |}
  else
    match code with
    | String k digits =>
        match parse_digits digits with
        | None => Raise (TypeError "data type not understood")
        | Some n =>
            let dt prefix valid :=
              if existsb (Z.eqb n) valid
              then Ok {| kind := String k ""; itemsize := n;
                         name := prefix +:+ str_int (8 * n) |}
              else Raise (TypeError "data type not understood") in
            if Ascii.eqb k "u" then dt "uint" [1; 2; 4; 8]
            else if Ascii.eqb k "i" then dt "int" [1; 2; 4; 8]
            else if Ascii.eqb k "f" then dt "float" [2; 4; 8; 16]
            else if Ascii.eqb k "c" then dt "complex" [8; 16; 32]
            else Raise (TypeError "data type not understood")
        end
    | EmptyString => Raise (TypeError "data type not understood")
    end.

Definition np_dtype (s : string) : result Dtype :=
  match s with
  | String c rest => if is_order_char c then np_dtype_code rest
                     else np_dtype_code s
  | EmptyString => Raise (TypeError "data type not understood")
  end.

(** ** Mapped functions *)

(** The value a fixed-width integer scalar keeps of a host integer: the
    integer reduced into the range of its width. *)
Definition wrap_int (d : Dtype) (z : Z) : Z :=
  let m := 2 ^ (8 * itemsize d) in
  if String.eqb (kind d) "u" then z mod m
  else (z + m / 2) mod m - m / 2.

Definition dtype_type (d : Dtype) (v : pyval) : pyval :=
  match v with
  | VInt z =>
      if String.eqb (kind d) "u" || String.eqb (kind d) "i"
      then VScalar d (VInt (wrap_int d z))
      else VScalar d v
  | _ => VScalar d v
  end.

Definition apply_fn (f : map_fn) (v : pyval) : result pyval :=
  match f with
  | FDtypeType d => Ok (dtype_type d v)
  | FTuple =>
      match v with
      | VList l | VTuple l => Ok (VTuple l)
      | _ => Raise (TypeError "object is not iterable")
      end
  | FNpDtype =>
      match v with
      | VStr s => do d <- np_dtype s; Ok (VDtype d)
      | VDtype d => Ok (VDtype d)
      | _ => Raise (TypeError "data type not understood")
      end
  | FFormat template => do s <- format template [v] []; Ok (VStr s)
  end.

(** ** [from_dtype] *)

(** [a << n] on Python integers: a negative shift count is an error. *)
Definition py_lshift (a n : Z) : result Z :=
  if n <? 0 then Raise (ValueError "negative shift count")
  else Ok (Z.shiftl a n).

(** In [1 << (4 * dtype.itemsize) - 1] the subtraction binds tighter than
    the shift, and in [-1 << (4 * dtype.itemsize - 1)] the unary minus does. *)
Definition from_dtype (dtype : Dtype) : result strategy :=
  do result <-
    (if String.eqb (kind dtype) "b" then Ok Booleans
     else if String.eqb (kind dtype) "f" then Ok Floats
     else if String.eqb (kind dtype) "c" then Ok ComplexNumbers
     else if existsb (String.eqb (kind dtype)) ["S"; "a"; "V"] then Ok Binary
     else if String.eqb (kind dtype) "u" then
       do max_value <- py_lshift 1 ((4 * itemsize dtype) - 1);
       st_integers 0 max_value
     else if String.eqb (kind dtype) "i" then
       do min_integer <- py_lshift (-1) (4 * itemsize dtype - 1);
       st_integers min_integer (- min_integer - 1)
     else if String.eqb (kind dtype) "U" then Ok Text
     else
       do msg <- format "No strategy inference for {}" [VDtype dtype] [];
       Raise (InvalidArgument msg));
  Ok (Map (FDtypeType dtype) result).

(** ** [ArrayStrategy] *)

(** [np.prod] of a tuple of integers: their product.  numpy multiplies in
    signed 64-bit integers, so this is its result while the axes and their
    product fit in 64 bits; beyond that numpy wraps around, which is not
    modelled.  The properties of draws below that depend on the value are
    stated for shapes whose product fits. *)
Definition np_prod (shape : list Z) : Z := fold_right Z.mul 1 shape.

(** [__init__]: [assert shape] fails on the empty tuple. *)
Definition ArrayStrategy_init (element_strategy : strategy) (shape : list Z)
    (dtype : Dtype) : result strategy :=
  match shape with
  | [] => Raise AssertionError
  | _ => Ok (ArrayStrategy element_strategy shape (np_prod shape) dtype)
  end.

(** [np.empty(dtype=.., shape=size)]: a flat buffer of [size] cells.
    Memory is taken to suffice. *)
Definition np_empty (size : Z) : result (list pyval) :=
  if size <? 0 then Raise (ValueError "negative dimensions are not allowed")
  else Ok (replicate (Z.to_nat size) VUninit).

(** [hrange(n)]: the indices [0 .. n-1], none when [n <= 0]. *)
Definition hrange (n : Z) : list nat := seq 0 (Z.to_nat n).

(** [flat.reshape(shape)]: the same row-major buffer under a new shape.  One
    axis may be negative, to be inferred from the size of the buffer. *)
Definition np_reshape (d : Dtype) (flat : list pyval) (shape : list Z)
    : result pyval :=
  let size := Z.of_nat (length flat) in
  match length (filter (fun n => n < 0) shape) with
  | O => if np_prod shape =? size then Ok (VArray d shape flat)
         else Raise (ValueError "cannot reshape array")
  | 1%nat =>
      let known := np_prod (filter (fun n => 0 <= n) shape) in
      if (known =? 0) || negb (size mod known =? 0) then
        Raise (ValueError "cannot reshape array")
      else
        Ok (VArray d
              (map (fun n => if n <? 0 then size / known else n) shape)
              flat)
  | _ => Raise (ValueError "can only specify one unknown dimension")
  end.

(** Offset of the cell at a multi-index in a row-major buffer. *)
Fixpoint ravel_index (shape idx : list Z) : Z :=
  match shape, idx with
  | _ :: shape', i :: idx' => i * np_prod shape' + ravel_index shape' idx'
  | _, _ => 0
  end.

(** [a[idx]] for a full multi-index [idx]. *)
Definition getitem (a : pyval) (idx : list Z) : option pyval :=
  match a with
  | VArray _ shape flat => flat !! Z.to_nat (ravel_index shape idx)
  | _ => None
  end.

Section Draw.

(** The random-input stream, and [do_draw] of the strategies that come
    from [hypothesis.strategies]: it reads from the stream, which it
    leaves advanced, and returns a value or raises. *)
Context {Data : Type}.
Variable element_do_draw : strategy -> Data -> result (pyval * Data).

(** What numpy stores in a buffer of a dtype when a value is assigned to
    one of its cells: the value converted to the dtype, or the exception of
    a value it cannot convert. *)
Variable np_convert : Dtype -> pyval -> result pyval.

(** [result[i] = v] on a flat buffer of the dtype. *)
Definition setitem (dtype : Dtype) (buf : list pyval) (i : nat) (v : pyval)
    : result (list pyval) :=
  if (i <? length buf)%nat then
    do cell <- np_convert dtype v;
    Ok (<[i := cell]> buf)
  else Raise (IndexError "index is out of bounds").

(** The loop [for i in hrange(self.array_size): result[i] = ...]. *)
Fixpoint fill (element_strategy : strategy) (dtype : Dtype)
    (indices : list nat) (buf : list pyval) (data : Data)
    : result (list pyval * Data) :=
  match indices with
  | [] => Ok (buf, data)
  | i :: rest =>
      do drawn <- element_do_draw element_strategy data;
      do buf' <- setitem dtype buf i (fst drawn);
      fill element_strategy dtype rest buf' (snd drawn)
  end.

Definition do_draw (self : strategy) (data : Data)
    : result (pyval * Data) :=
  match self with
  | ArrayStrategy element_strategy shape array_size dtype =>
      do buf <- np_empty array_size;
      do filled <- fill element_strategy dtype (hrange array_size) buf data;
      do arr <- np_reshape dtype (fst filled) shape;
      Ok (arr, snd filled)
  | _ => element_do_draw self data
  end.

(** [n] draws from one strategy, one after the other on the same stream:
    the values in the order drawn, and the stream after the last draw. *)
Fixpoint sequential_draws (s : strategy) (n : nat) (data : Data)
    : result (list pyval * Data) :=
  match n with
  | O => Ok ([], data)
  | S n' =>
      do drawn <- element_do_draw s data;
      do more <- sequential_draws s n' (snd drawn);
      Ok (fst drawn :: fst more, snd more)
  end.

(** [n] draws from one strategy on the same stream, each stored in a cell
    of the dtype before the next is made: the cells in the order filled,
    and the stream after the last draw. *)
Fixpoint stored_draws (s : strategy) (dtype : Dtype) (n : nat) (data : Data)
    : result (list pyval * Data) :=
  match n with
  | O => Ok ([], data)
  | S n' =>
      do drawn <- element_do_draw s data;
      do cell <- np_convert dtype (fst drawn);
      do more <- stored_draws s dtype n' (snd drawn);
      Ok (cell :: fst more, snd more)
  end.

End Draw.

(** A stream that counts the draws made on it. *)
Definition counting {Data : Type}
    (draw : strategy -> Data -> result (pyval * Data))
    (s : strategy) (data : Data * nat) : result (pyval * (Data * nat)) :=
  do drawn <- draw s (fst data);
  Ok (fst drawn, (snd drawn, S (snd data))).

(** ** [arrays] *)

Inductive dtype_arg :=
| IsDtype (d : Dtype)            (* already an np.dtype *)
| TypeString (s : string).       (* to be given to np.dtype *)

Inductive shape_arg :=
| ShapeInt (n : Z)
| ShapeSeq (l : list Z).

(** What [arrays] returns: a strategy, or [None] when it falls off its end
    without a [return]. *)
Inductive returned :=
| Strategy (s : strategy)
| ReturnsNone.

(** [dtype if isinstance(dtype, np.dtype) else np.dtype(dtype)] *)
Definition as_dtype (dtype : dtype_arg) : result Dtype :=
  match dtype with
  | IsDtype d => Ok d
  | TypeString s => np_dtype s
  end.

Definition arrays (dtype : dtype_arg) (shape : shape_arg)
    (elements : option strategy) : result returned :=
  do dtype <- as_dtype dtype;
  do elements <- match elements with
                 | None => from_dtype dtype
                 | Some e => Ok e
                 end;
  let shape := match shape with
               | ShapeInt n => [n]
               | ShapeSeq l => l
               end in
  if negb (truthy (VTuple (VInt <$> shape))) then
    if negb (String.eqb (kind dtype) "O") then Ok (Strategy elements)
    else Ok ReturnsNone
  else
    do s <- ArrayStrategy_init elements shape dtype;
    Ok (Strategy s).

(** ** [array_shapes] *)

(** Modelled from the spec: [st.defines_strategy] is not part of this
    module; the specification has the decorated function validate and hand
    back its generator, so the decorator is taken to return what the
    function returns. *)
Definition defines_strategy (r : result strategy) : result strategy := r.

Definition array_shapes (min_dims max_dims min_side max_side : Z)
    : result strategy :=
  defines_strategy (
    run order_check "dims" (Some 1) min_dims max_dims;
    run order_check "side" (Some 1) min_side max_side;
    do sides <- st_integers min_side max_side;
    do shapes <- st_lists sides min_dims max_dims;
    Ok (Map FTuple shapes)).

(** ** Dtype strategies *)

Definition defines_dtype_strategy (strat : result strategy)
    : result strategy :=
  defines_strategy (do s <- strat; Ok (Map FNpDtype s)).

Definition boolean_dtypes : result strategy :=
  defines_dtype_strategy (Ok (Just (VStr "?"))).

Inductive sizes_arg :=
| SizesInt (n : Z)
| SizesSeq (l : list Z).

Definition valid_endian : list string := ["?"; "<"; "="; ">"].

(** [s.startswith(needle)] and [needle in s] on strings. *)
Fixpoint starts_with (needle s : string) : bool :=
  match needle, s with
  | EmptyString, _ => true
  | String a needle', String b s' => Ascii.eqb b a && starts_with needle' s'
  | String _ _, EmptyString => false
  end.

Fixpoint contains (needle s : string) : bool :=
  starts_with needle s ||
  match s with
  | EmptyString => false
  | String _ rest => contains needle rest
  end.

(** [sorted(set(l))]: ascending, each value once. *)
Fixpoint insert_sorted (x : Z) (l : list Z) : list Z :=
  match l with
  | [] => [x]
  | y :: rest =>
      if x <? y then x :: l
      else if x =? y then l
      else y :: insert_sorted x rest
  end.

Definition sorted_set (l : list Z) : list Z := fold_right insert_sorted [] l.

(** The sizes are integers, so [all(isinstance(s, int) for s in sizes)]
    holds whenever it is reached.  Without [valid_sizes] the sizes go to
    [st.sampled_from] as they are, which needs a sequence. *)
Definition dtype_factory (kind : string) (sizes : sizes_arg)
    (valid_sizes : option (list Z)) (endianness : string)
    : result strategy :=
  run call_check_argument
        [VBool (existsb (String.eqb endianness) valid_endian);
         VStr "Unknown endianness: was {}, must be in {}";
         VTuple (VStr <$> valid_endian)] [];
  do sizes <-
    match valid_sizes with
    | Some valid_sizes =>
        let sizes := match sizes with
                     | SizesInt n => [n]
                     | SizesSeq l => l
                     end in
        run call_check_argument
              [VTuple (VInt <$> sizes);
               VStr "Dtype must have at least one possible size."] [];
        run call_check_argument
              [VBool (forallb (fun s => existsb (Z.eqb s) valid_sizes) sizes);
               VStr "Invalid sizes: was {} must be an item or sequence in {}";
               VTuple (VInt <$> sizes); VTuple (VInt <$> valid_sizes)] [];
        Ok (sorted_set (map (fun s => s / 8) sizes))
    | None =>
        match sizes with
        | SizesSeq l => Ok l
        | SizesInt _ => Raise (TypeError "'int' object is not iterable")
        end
    end;
  let strat := SampledFrom (VInt <$> sizes) in
  let kind := if negb (contains "{}" kind) then kind +:+ "{}" else kind in
  if String.eqb endianness "?" then
    Ok (OneOf [Map (FFormat ("<" +:+ kind)) strat;
               Map (FFormat (">" +:+ kind)) strat])
  else Ok (Map (FFormat (endianness +:+ kind)) strat).

Definition unsigned_integer_dtypes (endianness : string) (sizes : sizes_arg)
    : result strategy :=
  defines_dtype_strategy
    (dtype_factory "u" sizes (Some [8; 16; 32; 64]) endianness).

Definition integer_dtypes (endianness : string) (sizes : sizes_arg)
    : result strategy :=
  defines_dtype_strategy
    (dtype_factory "i" sizes (Some [8; 16; 32; 64]) endianness).

Definition floating_dtypes (endianness : string) (sizes : sizes_arg)
    : result strategy :=
  defines_dtype_strategy
    (dtype_factory "f" sizes (Some [16; 32; 64; 96; 128]) endianness).

Definition complex_number_dtypes (endianness : string) (sizes : sizes_arg)
    : result strategy :=
  defines_dtype_strategy
    (dtype_factory "c" sizes (Some [64; 128; 192; 256]) endianness).

(** The default arguments of the four numeric families. *)
Definition default_endianness : string := "?".
Definition default_integer_sizes : sizes_arg := SizesSeq [8; 16; 32; 64].
Definition default_floating_sizes : sizes_arg := SizesSeq [16; 32; 64].
Definition default_complex_sizes : sizes_arg := SizesSeq [64; 128].

Definition scalar_dtypes : result strategy :=
  defines_strategy (
    do b <- boolean_dtypes;
    do i <- integer_dtypes default_endianness default_integer_sizes;
    do u <- unsigned_integer_dtypes default_endianness default_integer_sizes;
    do f <- floating_dtypes default_endianness default_floating_sizes;
    do c <- complex_number_dtypes default_endianness default_complex_sizes;
    Ok (OneOf [b; i; u; f; c])).

(** ** What a strategy can produce *)

(** Modelled from the spec: the combinators of [hypothesis.strategies] are
    not part of this module.  The specification asks of them bounded-integer
    generators, boolean, float, complex, text and byte-string generators,
    a generator that samples one of a fixed set, a union and a
    result-transforming map; a list generator yields lists whose length is
    within its size bounds.  [draws s v]: the strategy [s] can produce [v]. *)
#[warning="-register-all"] Inductive draws : strategy -> pyval -> Prop :=
| draws_booleans b : draws Booleans (VBool b)
| draws_floats r : draws Floats (VOpaque HFloat r)
| draws_complex r : draws ComplexNumbers (VOpaque HComplex r)
| draws_binary r : draws Binary (VOpaque HBytes r)
| draws_text s : draws Text (VStr s)
| draws_integers lo hi z : lo <= z <= hi -> draws (Integers lo hi) (VInt z)
| draws_just v : draws (Just v) v
| draws_sampled l v : In v l -> draws (SampledFrom l) v
| draws_one_of l s v : In s l -> draws s v -> draws (OneOf l) v
| draws_lists e lo hi vs :
    lo <= Z.of_nat (length vs) <= hi ->
    Forall (draws e) vs ->
    draws (Lists e lo hi) (VList vs)
| draws_map f s x y : draws s x -> apply_fn f x = Ok y -> draws (Map f s) y.

(** ** Definitions the statements use *)

(** The integers a fixed-width integer of the dtype can hold: the machine
    range of [itemsize] bytes, unsigned or two's complement. *)
Definition machine_range (d : Dtype) : Z * Z :=
  if String.eqb (kind d) "u" then (0, 2 ^ (8 * itemsize d) - 1)
  else (- 2 ^ (8 * itemsize d - 1), 2 ^ (8 * itemsize d - 1) - 1).

(** A string without braces: a format template without fields. *)
Fixpoint brace_free (s : string) : bool :=
  match s with
  | EmptyString => true
  | String c rest =>
      negb (Ascii.eqb c "{") && negb (Ascii.eqb c "}") && brace_free rest
  end.

(** The sequence a [sizes] argument stands for. *)
Definition sizes_list (sizes : sizes_arg) : list Z :=
  match sizes with
  | SizesInt n => [n]
  | SizesSeq l => l
  end.

(** First character of a string drawn, if a string was drawn. *)
Definition first_char (v : pyval) : option ascii :=
  match v with
  | VStr (String c _) => Some c
  | _ => None
  end.

(** The two halves of [dtype_factory] after its endianness check: the
    sizes it samples from, validated and normalised when [valid_sizes] is
    given, and the strategy it builds from them. *)
Definition checked_sizes (sizes : sizes_arg) (valid_sizes : option (list Z))
    : result (list Z) :=
  match valid_sizes with
  | Some valid_sizes =>
      let sizes := match sizes with
                   | SizesInt n => [n]
                   | SizesSeq l => l
                   end in
      run call_check_argument
            [VTuple (VInt <$> sizes);
             VStr "Dtype must have at least one possible size."] [];
      run call_check_argument
            [VBool (forallb (fun s => existsb (Z.eqb s) valid_sizes) sizes);
             VStr "Invalid sizes: was {} must be an item or sequence in {}";
             VTuple (VInt <$> sizes); VTuple (VInt <$> valid_sizes)] [];
      Ok (sorted_set (map (fun s => s / 8) sizes))
  | None =>
      match sizes with
      | SizesSeq l => Ok l
      | SizesInt _ => Raise (TypeError "'int' object is not iterable")
      end
  end.

Definition formatted (kind : string) (sizes : list Z) (endianness : string)
    : strategy :=
  let strat := SampledFrom (VInt <$> sizes) in
  let kind := if negb (contains "{}" kind) then kind +:+ "{}" else kind in
  if String.eqb endianness "?" then
    OneOf [Map (FFormat ("<" +:+ kind)) strat;
           Map (FFormat (">" +:+ kind)) strat]
  else Map (FFormat (endianness +:+ kind)) strat.

(** Two dtypes of one byte. *)
Definition uint8 : Dtype := {| kind := "u"; itemsize := 1; name := "uint8" |}.
Definition int8 : Dtype := {| kind := "i"; itemsize := 1; name := "int8" |}.

(** A stream that hands out 0, 1, 2, ..: its state is the next value. *)
Definition counter_draw (_ : strategy) (next : nat)
    : result (pyval * nat) :=
  Ok (VInt (Z.of_nat next), S next).

(** An instance of the conversion on assignment, for streams of host
    integers: a boolean buffer stores the truth value of the integer, any
    other buffer the integer as [dtype.type] converts it.  It is defined on
    integers only. *)
Definition store_int (d : Dtype) (v : pyval) : result pyval :=
  match v with
  | VInt z =>
      if String.eqb (kind d) "b" then Ok (VScalar d (VBool (negb (z =? 0))))
      else Ok (dtype_type d v)
  | _ => Raise (TypeError "not an integer")
  end.

(** The kinds [from_dtype] has a branch for. *)
Definition inferred_kinds : list string :=
  ["b"; "f"; "c"; "S"; "a"; "V"; "u"; "i"; "U"].

(** The tuple a [shape] argument stands for. *)
Definition shape_list (shape : shape_arg) : list Z :=
  match shape with
  | ShapeInt n => [n]
  | ShapeSeq l => l
  end.

(** The element strategy [arrays] uses: the one given, or the inferred one. *)
Definition element_strategy_of (d : Dtype) (elements : option strategy)
    : result strategy :=
  match elements with
  | None => from_dtype d
  | Some e => Ok e
  end.

(** The boolean dtype. *)
Definition bool_dtype : Dtype :=
  {| kind := "b"; itemsize := 1; name := "bool" |}.

(** The kind code and the valid sizes of each numeric family. *)
Definition numeric_families : list (string * list Z) :=
  [("u", [8; 16; 32; 64]); ("i", [8; 16; 32; 64]);
   ("f", [16; 32; 64; 96; 128]); ("c", [64; 128; 192; 256])].

(** * Properties *)

(** ** Results *)

Lemma bind_ok {A B} (r : result A) (k : A -> result B) (b : B) :
  bind r k = Ok b -> exists a, r = Ok a /\ k a = Ok b.
Proof. destruct r as [a|e]; simpl; [eauto | discriminate]. Qed.

Lemma append_empty_r (s : string) : s +:+ "" = s.
Proof.
  induction s as [|c s IH]; [reflexivity|].
  change (String c (s +:+ "") = String c s). now rewrite IH.
Qed.

(** ** [order_check] and [array_shapes] *)

Lemma order_check_eq name floor small large :
  order_check name floor small large =
    if match floor with
       | Some f => (f >? small) && (small >? large)
       | None => false
       end
    then Raise (multiple_values "condition")
    else Ok tt.
Proof.
  unfold order_check. destruct floor as [f|]; simpl; [|reflexivity].
  destruct ((f >? small) && (small >? large)); reflexivity.
Qed.

Lemma order_check_floor_ok name floor small large :
  floor <= small -> order_check name (Some floor) small large = Ok tt.
Proof.
  intros H. rewrite order_check_eq.
  replace (floor >? small) with false; [reflexivity|].
  symmetry. rewrite Z.gtb_ltb. apply Z.ltb_ge. exact H.
Qed.

(** C10.  [order_check] never raises [InvalidArgument]: it returns unless
    [floor > small > large], and then the call of [check_argument] gives
    [condition] both by position and by keyword, which is a [TypeError]. *)
Theorem order_check_never_invalid_argument name floor small large :
  order_check name floor small large =
    (if match floor with
        | Some f => (f >? small) && (small >? large)
        | None => false
        end
     then Raise (TypeError
       "check_argument() got multiple values for argument 'condition'")
     else Ok tt)
  /\ is_invalid_argument (order_check name floor small large) = false.
Proof.
  rewrite order_check_eq. split; [reflexivity|].
  destruct floor as [f|]; [|reflexivity].
  destruct ((f >? small) && (small >? large)); reflexivity.
Qed.

(** The bounds [st.integers] and [st.lists] accept. *)
Lemma st_integers_ok min_value max_value :
  min_value <= max_value ->
  st_integers min_value max_value = Ok (Integers min_value max_value).
Proof.
  intros H. unfold st_integers.
  replace (min_value >? max_value) with false by (symmetry; lia).
  reflexivity.
Qed.

Lemma st_lists_ok elements min_size max_size :
  0 <= min_size <= max_size ->
  st_lists elements min_size max_size = Ok (Lists elements min_size max_size).
Proof.
  intros H. unfold st_lists.
  replace (min_size <? 0) with false by (symmetry; lia).
  replace (max_size <? 0) with false by (symmetry; lia).
  replace (min_size >? max_size) with false by (symmetry; lia).
  reflexivity.
Qed.

(** With each minimum no greater than its maximum, and no negative number
    of dimensions, [array_shapes] returns its strategy: the floor of 1 plays
    no part. *)
Lemma array_shapes_ordered min_dims max_dims min_side max_side :
  0 <= min_dims <= max_dims ->
  min_side <= max_side ->
  array_shapes min_dims max_dims min_side max_side =
    Ok (Map FTuple (Lists (Integers min_side max_side) min_dims max_dims)).
Proof.
  intros Hd Hs. unfold array_shapes, defines_strategy.
  rewrite !order_check_eq.
  replace (min_dims >? max_dims) with false by (symmetry; lia).
  replace (min_side >? max_side) with false by (symmetry; lia).
  rewrite !andb_false_r. simpl.
  rewrite st_integers_ok by exact Hs. simpl.
  rewrite st_lists_ok by exact Hd. reflexivity.
Qed.

(** C3.  A minimum below the floor of 1 is not rejected with
    [InvalidArgument].  With the bounds in order, [array_shapes] returns its
    strategy: [min_dims = 0] gives one that draws the empty shape, and
    [min_side = 0] one that draws an axis of length 0.  With the minimum
    also above the maximum, [1 > min > max], the call stops with the
    [TypeError] of the malformed call in [order_check]. *)
Theorem array_shapes_minimum_below_floor :
  array_shapes 0 3 1 10 = Ok (Map FTuple (Lists (Integers 1 10) 0 3)) /\
  draws (Map FTuple (Lists (Integers 1 10) 0 3)) (VTuple []) /\
  array_shapes 1 3 0 10 = Ok (Map FTuple (Lists (Integers 0 10) 1 3)) /\
  draws (Map FTuple (Lists (Integers 0 10) 1 3)) (VTuple [VInt 0]) /\
  array_shapes 0 (-1) 1 10 = Raise (TypeError
    "check_argument() got multiple values for argument 'condition'") /\
  (forall min_dims max_dims min_side max_side,
     min_dims < 1 \/ min_side < 1 ->
     0 <= min_dims <= max_dims ->
     min_side <= max_side ->
     array_shapes min_dims max_dims min_side max_side =
       Ok (Map FTuple
             (Lists (Integers min_side max_side) min_dims max_dims))) /\
  (forall min_dims max_dims min_side max_side,
     max_dims < min_dims < 1 \/ max_side < min_side < 1 ->
     array_shapes min_dims max_dims min_side max_side =
       Raise (TypeError
         "check_argument() got multiple values for argument 'condition'")).
Proof.
  split; [reflexivity|]. split.
  { apply (draws_map FTuple _ (VList [])); [|reflexivity].
    apply draws_lists; [simpl; lia | constructor]. }
  split; [reflexivity|]. split.
  { apply (draws_map FTuple _ (VList [VInt 0])); [|reflexivity].
    apply draws_lists; [simpl; lia|].
    repeat constructor; lia. }
  split; [reflexivity|]. split.
  - intros min_dims max_dims min_side max_side _ Hd Hs.
    now apply array_shapes_ordered.
  - intros min_dims max_dims min_side max_side H.
    unfold array_shapes, defines_strategy. rewrite !order_check_eq.
    destruct ((1 >? min_dims) && (min_dims >? max_dims)) eqn:Hdims;
      [reflexivity|].
    destruct H as [H|H].
    + replace (1 >? min_dims) with true in Hdims by (symmetry; lia).
      replace (min_dims >? max_dims) with true in Hdims by (symmetry; lia).
      discriminate.
    + replace (1 >? min_side) with true by (symmetry; lia).
      replace (min_side >? max_side) with true by (symmetry; lia).
      reflexivity.
Qed.

Lemma array_shapes_minimum_below_floor_witness :
  array_shapes 0 0 (-2) 5 = Ok (Map FTuple (Lists (Integers (-2) 5) 0 0)) /\
  array_shapes 3 4 0 (-1) = Raise (TypeError
    "check_argument() got multiple values for argument 'condition'").
Proof.
  destruct array_shapes_minimum_below_floor
    as (_ & _ & _ & _ & _ & Haccepted & Hmalformed).
  split.
  - apply (Haccepted 0 0 (-2) 5); lia.
  - apply (Hmalformed 3 4 0 (-1)). right. lia.
Defined.

(** Bounds out of order with the minimum at or above the floor pass both
    order checks; it is [st.lists] and [st.integers] that refuse them. *)
Example array_shapes_inverted_bounds :
  order_check "dims" (Some 1) 3 1 = Ok tt /\
  is_invalid_argument (array_shapes 3 1 1 10) = true /\
  order_check "side" (Some 1) 5 2 = Ok tt /\
  is_invalid_argument (array_shapes 1 3 5 2) = true.
Proof. repeat split. Qed.

(** ** The endianness check of [dtype_factory] *)

Lemma existsb_eqb_In (e : string) (l : list string) :
  existsb (String.eqb e) l = true <-> In e l.
Proof.
  rewrite existsb_exists. split.
  - intros (x & Hx & Heq). apply String.eqb_eq in Heq. now subst.
  - intros H. exists e. split; [exact H | apply String.eqb_refl].
Qed.

Lemma dtype_factory_bad_endianness kind sizes valid_sizes endianness :
  ~ In endianness valid_endian ->
  dtype_factory kind sizes valid_sizes endianness =
    Raise (IndexError "tuple index out of range").
Proof.
  intros H. unfold dtype_factory.
  replace (existsb (String.eqb endianness) valid_endian) with false.
  - reflexivity.
  - symmetry. apply not_true_is_false. now rewrite existsb_eqb_In.
Qed.

(** C8.  An endianness outside ['?', '<', '=', '>'] does not give
    [InvalidArgument]: the message has two fields and the call passes one
    value, so formatting it raises [IndexError], in [dtype_factory] and in
    the four families built on it. *)
Theorem dtype_factory_unknown_endianness kind sizes valid_sizes endianness :
  ~ In endianness valid_endian ->
  dtype_factory kind sizes valid_sizes endianness =
    Raise (IndexError "tuple index out of range") /\
  unsigned_integer_dtypes endianness sizes =
    Raise (IndexError "tuple index out of range") /\
  integer_dtypes endianness sizes =
    Raise (IndexError "tuple index out of range") /\
  floating_dtypes endianness sizes =
    Raise (IndexError "tuple index out of range") /\
  complex_number_dtypes endianness sizes =
    Raise (IndexError "tuple index out of range").
Proof.
  intros H.
  unfold unsigned_integer_dtypes, integer_dtypes, floating_dtypes,
    complex_number_dtypes.
  rewrite !dtype_factory_bad_endianness by exact H.
  repeat split; reflexivity.
Qed.

Lemma dtype_factory_unknown_endianness_witness :
  dtype_factory "u" (SizesSeq [8]) (Some [8; 16; 32; 64]) "x" =
    Raise (IndexError "tuple index out of range") /\
  unsigned_integer_dtypes "x" (SizesSeq [8]) =
    Raise (IndexError "tuple index out of range").
Proof.
  destruct (dtype_factory_unknown_endianness "u" (SizesSeq [8])
              (Some [8; 16; 32; 64]) "x") as (H1 & H2 & _).
  - unfold valid_endian. simpl. intros [H|[H|[H|[H|[]]]]]; discriminate H.
  - split; assumption.
Defined.

(** The endianness is checked before the sizes: with an unknown endianness
    the [IndexError] is raised whatever the sizes are. *)
Example unknown_endianness_before_sizes :
  unsigned_integer_dtypes "x" (SizesSeq [7]) =
    Raise (IndexError "tuple index out of range") /\
  unsigned_integer_dtypes "x" (SizesSeq []) =
    Raise (IndexError "tuple index out of range").
Proof. split; reflexivity. Qed.

(** ** [arrays] on the empty shape *)

Lemma from_dtype_object d :
  kind d = "O" ->
  from_dtype d =
    Raise (InvalidArgument ("No strategy inference for " +:+ name d)).
Proof.
  intros Hk. unfold from_dtype. rewrite Hk.
  change (format "No strategy inference for {}" [VDtype d] [])
    with (Ok (A := string) ("No strategy inference for " +:+ (name d +:+ ""))).
  now rewrite append_empty_r.
Qed.

(** C2.  For an object dtype and the empty shape [arrays] returns no
    array strategy: with [elements] given it reaches the end of its body and
    returns [None]; with [elements] left out it raises the [InvalidArgument]
    of [from_dtype], which infers nothing for kind ['O']. *)
Theorem arrays_object_empty_shape dtype d elements :
  as_dtype dtype = Ok d ->
  kind d = "O" ->
  arrays dtype (ShapeSeq []) (Some elements) = Ok ReturnsNone /\
  arrays dtype (ShapeSeq []) None =
    Raise (InvalidArgument ("No strategy inference for " +:+ name d)).
Proof.
  intros Hd Hk. unfold arrays. rewrite Hd. simpl.
  rewrite Hk, from_dtype_object by exact Hk. split; reflexivity.
Qed.

Lemma arrays_object_empty_shape_witness :
  arrays (TypeString "O") (ShapeSeq []) (Some (Just VNone)) = Ok ReturnsNone /\
  arrays (TypeString "O") (ShapeSeq []) None =
    Raise (InvalidArgument "No strategy inference for object").
Proof.
  apply (arrays_object_empty_shape (TypeString "O")
           {| kind := "O"; itemsize := 8; name := "object" |} (Just VNone));
    reflexivity.
Defined.

Lemma from_dtype_map d s :
  from_dtype d = Ok s -> exists inner, s = Map (FDtypeType d) inner.
Proof.
  unfold from_dtype. intros H. apply bind_ok in H as (inner & _ & H).
  exists inner. now inversion H.
Qed.

Lemma draws_map_inv f s v :
  draws (Map f s) v -> exists x, draws s x /\ apply_fn f x = Ok v.
Proof. intros H. inversion H; subst. eauto. Qed.

Lemma dtype_type_scalar d x : exists y, dtype_type d x = VScalar d y.
Proof.
  unfold dtype_type. destruct x; eauto.
  destruct (String.eqb (kind d) "u" || String.eqb (kind d) "i"); eauto.
Qed.

(** C5.  For a dtype whose kind is not ['O'] and the empty shape, [arrays]
    returns the element strategy itself: the one passed as [elements], and
    when none is passed what [from_dtype] gives for the dtype (its strategy,
    or its exception); what that strategy draws are scalars of the dtype,
    not arrays. *)
Theorem arrays_empty_shape_collapses dtype d :
  as_dtype dtype = Ok d ->
  kind d <> "O" ->
  (forall elements,
     arrays dtype (ShapeSeq []) (Some elements) = Ok (Strategy elements)) /\
  arrays dtype (ShapeSeq []) None =
    (do s <- from_dtype d; Ok (Strategy s)) /\
  (forall s v, from_dtype d = Ok s -> draws s v -> exists x, v = VScalar d x).
Proof.
  intros Hd Hk. apply String.eqb_neq in Hk.
  unfold arrays. rewrite Hd. simpl. rewrite Hk. simpl.
  split; [reflexivity|]. split.
  - destruct (from_dtype d); reflexivity.
  - intros s v Hs Hv. apply from_dtype_map in Hs as (inner & ->).
    apply draws_map_inv in Hv as (x & _ & Hx). simpl in Hx.
    inversion Hx. apply dtype_type_scalar.
Qed.

Lemma arrays_empty_shape_collapses_witness :
  arrays (TypeString "<u2") (ShapeSeq []) None =
    (do s <- from_dtype {| kind := "u"; itemsize := 2; name := "uint16" |};
     Ok (Strategy s)).
Proof.
  apply (arrays_empty_shape_collapses (TypeString "<u2")
           {| kind := "u"; itemsize := 2; name := "uint16" |});
    [reflexivity | discriminate].
Defined.

(** ** The integer ranges of [from_dtype] *)

Lemma pow2_half n : 1 <= n -> 2 ^ n = 2 * 2 ^ (n - 1).
Proof.
  intros H. replace n with (Z.succ (n - 1)) at 1 by lia.
  apply Z.pow_succ_r. lia.
Qed.

Lemma pow2_lt a b : 0 <= a < b -> 2 ^ a < 2 ^ b.
Proof. intros H. apply Z.pow_lt_mono_r; lia. Qed.

Lemma wrap_int_unsigned d z :
  kind d = "u" -> 0 <= z < 2 ^ (8 * itemsize d) -> wrap_int d z = z.
Proof.
  intros Hk Hz. unfold wrap_int. rewrite Hk. simpl.
  apply Z.mod_small. exact Hz.
Qed.

Lemma wrap_int_signed d z :
  kind d = "i" -> 1 <= itemsize d ->
  - 2 ^ (8 * itemsize d - 1) <= z < 2 ^ (8 * itemsize d - 1) ->
  wrap_int d z = z.
Proof.
  intros Hk Hs Hz. unfold wrap_int. rewrite Hk. simpl.
  rewrite (pow2_half (8 * itemsize d)) by lia.
  set (h := 2 ^ (8 * itemsize d - 1)) in *.
  replace (2 * h / 2) with h by (apply Z.div_unique_exact; lia).
  rewrite Z.mod_small; lia.
Qed.

Lemma from_dtype_unsigned d :
  kind d = "u" -> 1 <= itemsize d ->
  from_dtype d =
    Ok (Map (FDtypeType d) (Integers 0 (2 ^ (4 * itemsize d - 1)))).
Proof.
  intros Hk Hs.
  assert (0 < 2 ^ (4 * itemsize d - 1)) by (apply Z.pow_pos_nonneg; lia).
  unfold from_dtype, py_lshift. rewrite Hk. simpl.
  replace (4 * itemsize d - 1 <? 0) with false by (symmetry; lia).
  simpl. rewrite Z.shiftl_1_l, st_integers_ok by lia. reflexivity.
Qed.

Lemma from_dtype_signed d :
  kind d = "i" -> 1 <= itemsize d ->
  from_dtype d =
    Ok (Map (FDtypeType d)
          (Integers (- 2 ^ (4 * itemsize d - 1))
                    (2 ^ (4 * itemsize d - 1) - 1))).
Proof.
  intros Hk Hs.
  assert (0 < 2 ^ (4 * itemsize d - 1)) by (apply Z.pow_pos_nonneg; lia).
  unfold from_dtype, py_lshift. rewrite Hk. simpl.
  replace (4 * itemsize d - 1 <? 0) with false by (symmetry; lia).
  simpl. rewrite Z.shiftl_mul_pow2 by lia.
  rewrite st_integers_ok by lia. simpl. do 3 f_equal; lia.
Qed.

(** C1.  For an integer dtype of [itemsize] bytes, [from_dtype] returns a
    bounded integer strategy mapped through the scalar type of the dtype,
    and every value it draws is a scalar of the dtype holding the host
    integer drawn, which lies in the machine range of that many bytes:
    [[0, 2^(8s) - 1]] unsigned, [[-2^(8s-1), 2^(8s-1) - 1]] signed. *)
Theorem from_dtype_integer_range d :
  kind d = "u" \/ kind d = "i" ->
  1 <= itemsize d ->
  exists lo hi,
    from_dtype d = Ok (Map (FDtypeType d) (Integers lo hi)) /\
    draws (Map (FDtypeType d) (Integers lo hi)) (VScalar d (VInt 0)) /\
    forall v, draws (Map (FDtypeType d) (Integers lo hi)) v ->
      exists z, v = VScalar d (VInt z) /\ lo <= z <= hi /\
        fst (machine_range d) <= z <= snd (machine_range d).
Proof.
  intros Hk Hs.
  assert (Hlt : 2 ^ (4 * itemsize d - 1) < 2 ^ (8 * itemsize d - 1))
    by (apply pow2_lt; lia).
  assert (Hlt' : 2 ^ (8 * itemsize d - 1) < 2 ^ (8 * itemsize d))
    by (apply pow2_lt; lia).
  assert (Hpos : 0 < 2 ^ (4 * itemsize d - 1))
    by (apply Z.pow_pos_nonneg; lia).
  destruct Hk as [Hk|Hk].
  - exists 0, (2 ^ (4 * itemsize d - 1)).
    assert (Hfrom : from_dtype d = Ok (Map (FDtypeType d)
                      (Integers 0 (2 ^ (4 * itemsize d - 1))))).
    { now apply from_dtype_unsigned. }
    assert (Hdraw : forall z, 0 <= z <= 2 ^ (4 * itemsize d - 1) ->
              apply_fn (FDtypeType d) (VInt z) = Ok (VScalar d (VInt z))).
    { intros z Hz. simpl. unfold dtype_type. rewrite Hk. simpl.
      rewrite wrap_int_unsigned; [reflexivity | exact Hk | lia]. }
    split; [exact Hfrom|]. split.
    + eapply draws_map; [apply draws_integers | apply Hdraw]; lia.
    + intros v Hv. apply draws_map_inv in Hv as (x & Hx & Hv).
      inversion Hx; subst. rewrite Hdraw in Hv by assumption.
      inversion Hv; subst. exists z. split; [reflexivity|].
      split; [assumption|]. unfold machine_range. rewrite Hk. simpl. lia.
  - exists (- 2 ^ (4 * itemsize d - 1)), (2 ^ (4 * itemsize d - 1) - 1).
    assert (Hfrom : from_dtype d = Ok (Map (FDtypeType d)
              (Integers (- 2 ^ (4 * itemsize d - 1))
                        (2 ^ (4 * itemsize d - 1) - 1)))).
    { now apply from_dtype_signed. }
    assert (Hdraw : forall z,
              - 2 ^ (4 * itemsize d - 1) <= z <= 2 ^ (4 * itemsize d - 1) - 1 ->
              apply_fn (FDtypeType d) (VInt z) = Ok (VScalar d (VInt z))).
    { intros z Hz. simpl. unfold dtype_type. rewrite Hk. simpl.
      rewrite wrap_int_signed; [reflexivity | exact Hk | lia | lia]. }
    split; [exact Hfrom|]. split.
    + eapply draws_map; [apply draws_integers | apply Hdraw]; lia.
    + intros v Hv. apply draws_map_inv in Hv as (x & Hx & Hv).
      inversion Hx; subst. rewrite Hdraw in Hv by assumption.
      inversion Hv; subst. exists z. split; [reflexivity|].
      split; [assumption|]. unfold machine_range. rewrite Hk. simpl. lia.
Qed.

Lemma from_dtype_integer_range_witness :
  exists lo hi,
    from_dtype uint8 = Ok (Map (FDtypeType uint8) (Integers lo hi)) /\
    draws (Map (FDtypeType uint8) (Integers lo hi)) (VScalar uint8 (VInt 0)) /\
    forall v, draws (Map (FDtypeType uint8) (Integers lo hi)) v ->
      exists z, v = VScalar uint8 (VInt z) /\ lo <= z <= hi /\
        0 <= z <= 255.
Proof.
  apply (from_dtype_integer_range uint8); [left; reflexivity | simpl; lia].
Defined.

(** The bounds [from_dtype] computes for one byte: they lie inside the
    machine range and do not reach its ends. *)
Example from_dtype_uint8 :
  from_dtype uint8 = Ok (Map (FDtypeType uint8) (Integers 0 8)).
Proof. reflexivity. Qed.

Example from_dtype_int8 :
  from_dtype int8 = Ok (Map (FDtypeType int8) (Integers (-8) 7)).
Proof. reflexivity. Qed.

(** ** The shapes [array_shapes] draws *)

Lemma draws_integers_list lo hi vs :
  Forall (draws (Integers lo hi)) vs ->
  exists sides, vs = VInt <$> sides /\ Forall (fun n => lo <= n <= hi) sides.
Proof.
  induction 1 as [|v vs Hv _ (sides & -> & IH)].
  - exists []. split; [reflexivity | constructor].
  - inversion Hv; subst. exists (z :: sides).
    split; [reflexivity | now constructor].
Qed.

(** C9.  With [1 <= min_dims <= max_dims] and [1 <= min_side <= max_side],
    [array_shapes] returns a strategy; it has draws, and each is a tuple of
    integers whose length is within [[min_dims, max_dims]] and whose
    elements are within [[min_side, max_side]]. *)
Theorem array_shapes_bounds min_dims max_dims min_side max_side :
  1 <= min_dims <= max_dims ->
  1 <= min_side <= max_side ->
  exists s,
    array_shapes min_dims max_dims min_side max_side = Ok s /\
    (exists v, draws s v) /\
    forall v, draws s v ->
      exists sides,
        v = VTuple (VInt <$> sides) /\
        min_dims <= Z.of_nat (length sides) <= max_dims /\
        Forall (fun n => min_side <= n <= max_side) sides.
Proof.
  intros Hd Hs.
  exists (Map FTuple (Lists (Integers min_side max_side) min_dims max_dims)).
  split; [|split].
  - apply array_shapes_ordered; lia.
  - exists (VTuple (replicate (Z.to_nat min_dims) (VInt min_side))).
    apply (draws_map FTuple _
             (VList (replicate (Z.to_nat min_dims) (VInt min_side))));
      [|reflexivity].
    apply draws_lists.
    + rewrite length_replicate. lia.
    + apply Forall_replicate. apply draws_integers. lia.
  - intros v Hv. apply draws_map_inv in Hv as (x & Hx & Hv).
    inversion Hx as [| | | | | | | | |e lo hi vs Hlen Hall|]; subst.
    simpl in Hv. inversion Hv; subst.
    apply draws_integers_list in Hall as (sides & -> & Hsides).
    exists sides. rewrite length_fmap in Hlen. auto.
Qed.

Lemma array_shapes_bounds_witness :
  exists s,
    array_shapes 1 3 1 10 = Ok s /\
    (exists v, draws s v) /\
    forall v, draws s v ->
      exists sides,
        v = VTuple (VInt <$> sides) /\
        1 <= Z.of_nat (length sides) <= 3 /\
        Forall (fun n => 1 <= n <= 10) sides.
Proof. apply (array_shapes_bounds 1 3 1 10); lia. Defined.

(** ** [ArrayStrategy.do_draw] *)

Section DrawProperties.

Context {Data : Type}.
Variable element_do_draw : strategy -> Data -> result (pyval * Data).
Variable np_convert : Dtype -> pyval -> result pyval.

Lemma sequential_draws_length s n data drawn :
  sequential_draws element_do_draw s n data = Ok drawn ->
  length (fst drawn) = n.
Proof.
  revert data drawn. induction n as [|n IH]; intros data drawn H; simpl in H.
  - inversion H. reflexivity.
  - apply bind_ok in H as (x & _ & H).
    apply bind_ok in H as (more & Hmore & H).
    inversion H; subst. simpl. f_equal. eapply IH. exact Hmore.
Qed.

Lemma sequential_draws_S s n data :
  sequential_draws element_do_draw s (S n) data =
    (do drawn <- element_do_draw s data;
     do more <- sequential_draws element_do_draw s n (snd drawn);
     Ok (fst drawn :: fst more, snd more)).
Proof. reflexivity. Qed.

(** The draw after [n] draws reads the stream those [n] draws left, and
    its value comes last. *)
Lemma sequential_draws_snoc s n data :
  sequential_draws element_do_draw s (S n) data =
    (do r <- sequential_draws element_do_draw s n data;
     do x <- element_do_draw s (snd r);
     Ok ((fst r ++ [fst x])%list, snd x)).
Proof.
  revert data. induction n as [|n IH]; intros data.
  - simpl. destruct (element_do_draw s data) as [[v d]|e]; reflexivity.
  - rewrite sequential_draws_S. rewrite (sequential_draws_S s n data).
    destruct (element_do_draw s data) as [[v d]|e]; [|reflexivity].
    unfold bind at 1 4. cbv beta iota. unfold snd at 1 3, fst at 1 3.
    rewrite IH.
    destruct (sequential_draws element_do_draw s n d) as [[vs d']|e];
      [|reflexivity].
    simpl. destruct (element_do_draw s d') as [[v' d'']|e]; reflexivity.
Qed.

(** The value at position [i] is the one drawn from the stream that the
    first [i] draws left. *)
Lemma sequential_draws_nth s n : forall data drawn i v,
  sequential_draws element_do_draw s n data = Ok drawn ->
  fst drawn !! i = Some v ->
  exists before after,
    sequential_draws element_do_draw s i data =
      Ok (take i (fst drawn), before) /\
    element_do_draw s before = Ok (v, after).
Proof.
  induction n as [|n IH]; intros data drawn i v H Hi.
  - inversion H; subst. discriminate.
  - rewrite sequential_draws_S in H.
    apply bind_ok in H as ([v0 d1] & Hdraw & H).
    apply bind_ok in H as (more & Hmore & H). inversion H; subst. clear H.
    simpl in Hmore. destruct i as [|i]; simpl in Hi.
    + inversion Hi; subst. exists data, d1. split; [reflexivity | exact Hdraw].
    + destruct (IH _ _ _ _ Hmore Hi) as (before & after & Hprefix & Hv).
      exists before, after. split; [|exact Hv].
      rewrite sequential_draws_S, Hdraw. simpl. rewrite Hprefix. reflexivity.
Qed.

Lemma stored_draws_S s dtype n data :
  stored_draws element_do_draw np_convert s dtype (S n) data =
    (do drawn <- element_do_draw s data;
     do cell <- np_convert dtype (fst drawn);
     do more <- stored_draws element_do_draw np_convert s dtype n (snd drawn);
     Ok (cell :: fst more, snd more)).
Proof. reflexivity. Qed.

Lemma stored_draws_length s dtype n : forall data stored,
  stored_draws element_do_draw np_convert s dtype n data = Ok stored ->
  length (fst stored) = n.
Proof.
  induction n as [|n IH]; intros data stored H.
  - inversion H. reflexivity.
  - rewrite stored_draws_S in H.
    apply bind_ok in H as (x & _ & H).
    apply bind_ok in H as (cell & _ & H).
    apply bind_ok in H as (more & Hmore & H).
    inversion H; subst. simpl. f_equal. eapply IH. exact Hmore.
Qed.

(** The cells stored are the values of [n] draws in sequence, each as the
    assignment converted it, and the stream is the one those draws left. *)
Lemma stored_draws_drawn s dtype n : forall data cells data',
  stored_draws element_do_draw np_convert s dtype n data = Ok (cells, data') ->
  exists drawn,
    sequential_draws element_do_draw s n data = Ok (drawn, data') /\
    Forall2 (fun v cell => np_convert dtype v = Ok cell) drawn cells.
Proof.
  induction n as [|n IH]; intros data cells data' H.
  - inversion H; subst. exists []. split; [reflexivity | constructor].
  - rewrite stored_draws_S in H.
    apply bind_ok in H as ([v d1] & Hdraw & H).
    apply bind_ok in H as (cell & Hcell & H).
    apply bind_ok in H as ([more d2] & Hmore & H).
    inversion H; subst. clear H. simpl in Hcell, Hmore.
    destruct (IH _ _ _ Hmore) as (drawn & Hdrawn & Hall).
    exists (v :: drawn). split; [|now constructor].
    rewrite sequential_draws_S, Hdraw. simpl. rewrite Hdrawn. reflexivity.
Qed.

(** Where the assignment stores every value the strategy draws as it is,
    the cells are the values drawn. *)
Lemma stored_draws_unchanged s dtype n :
  (forall data v data',
     element_do_draw s data = Ok (v, data') -> np_convert dtype v = Ok v) ->
  forall data,
    stored_draws element_do_draw np_convert s dtype n data =
      sequential_draws element_do_draw s n data.
Proof.
  intros Hkeep. induction n as [|n IH]; intros data; [reflexivity|].
  rewrite stored_draws_S, sequential_draws_S.
  destruct (element_do_draw s data) as [[v d1]|e] eqn:Hdraw; [|reflexivity].
  simpl. rewrite (Hkeep _ _ _ Hdraw). simpl. rewrite IH. reflexivity.
Qed.

(** The loop over [k, k+1, .., k+m-1] on a buffer of [k+m] cells keeps
    the first [k] cells and puts the [m] draws after them, in order, each
    as the assignment stores it. *)
Lemma fill_seq s dtype m : forall k buf data,
  length buf = (k + m)%nat ->
  fill element_do_draw np_convert s dtype (seq k m) buf data =
    (do stored <- stored_draws element_do_draw np_convert s dtype m data;
     Ok ((take k buf ++ fst stored)%list, snd stored)).
Proof.
  induction m as [|m IH]; intros k buf data Hlen.
  - simpl. rewrite app_nil_r, take_ge by lia. reflexivity.
  - simpl. destruct (element_do_draw s data) as [[v d]|e]; [|reflexivity].
    simpl. unfold setitem.
    replace (k <? length buf)%nat with true
      by (symmetry; apply Nat.ltb_lt; lia).
    destruct (np_convert dtype v) as [cell|e]; [|reflexivity].
    simpl. rewrite IH by (rewrite length_insert; lia).
    destruct (stored_draws element_do_draw np_convert s dtype m d)
      as [[vs d']|e]; [|reflexivity].
    simpl. do 2 f_equal.
    rewrite (take_S_r _ _ cell) by (apply list_lookup_insert_eq; lia).
    rewrite take_insert_ge by lia. rewrite <- app_assoc. reflexivity.
Qed.

End DrawProperties.

Lemma np_prod_nonneg shape : Forall (fun n => 0 <= n) shape -> 0 <= np_prod shape.
Proof.
  induction 1 as [|n shape Hn _ IH]; simpl; [lia|].
  apply Z.mul_nonneg_nonneg; assumption.
Qed.

Lemma positive_axes_nonneg shape :
  Forall (fun n => 1 <= n) shape -> Forall (fun n => 0 <= n) shape.
Proof.
  intros H. eapply Forall_impl; [exact H|]. intros n Hn. simpl in Hn. lia.
Qed.

Lemma no_negative_axis shape :
  Forall (fun n => 0 <= n) shape -> filter (fun n => n < 0) shape = [].
Proof.
  induction 1 as [|n shape Hn _ IH]; [reflexivity|].
  rewrite filter_cons_False by lia. exact IH.
Qed.

Lemma np_reshape_ok d flat shape :
  Forall (fun n => 0 <= n) shape ->
  Z.of_nat (length flat) = np_prod shape ->
  np_reshape d flat shape = Ok (VArray d shape flat).
Proof.
  intros Hshape Hsize. unfold np_reshape.
  rewrite no_negative_axis by exact Hshape.
  simpl. rewrite Hsize, Z.eqb_refl. reflexivity.
Qed.

Lemma sequential_draws_counting {Data : Type}
    (element_do_draw : strategy -> Data -> result (pyval * Data)) s n :
  forall data count,
    sequential_draws (counting element_do_draw) s n (data, count) =
      (do r <- sequential_draws element_do_draw s n data;
       Ok (fst r, (snd r, (n + count)%nat))).
Proof.
  induction n as [|n IH]; intros data count; [reflexivity|].
  simpl. unfold counting at 1. simpl.
  destruct (element_do_draw s data) as [[v d]|e]; [|reflexivity].
  simpl. rewrite IH.
  destruct (sequential_draws element_do_draw s n d) as [[vs d']|e];
    [|reflexivity].
  simpl. do 3 f_equal. lia.
Qed.

Lemma stored_draws_counting {Data : Type}
    (element_do_draw : strategy -> Data -> result (pyval * Data))
    (np_convert : Dtype -> pyval -> result pyval) s dtype n :
  forall data count,
    stored_draws (counting element_do_draw) np_convert s dtype n
      (data, count) =
      (do r <- stored_draws element_do_draw np_convert s dtype n data;
       Ok (fst r, (snd r, (n + count)%nat))).
Proof.
  induction n as [|n IH]; intros data count; [reflexivity|].
  simpl. unfold counting at 1. simpl.
  destruct (element_do_draw s data) as [[v d]|e]; [|reflexivity].
  simpl. destruct (np_convert dtype v) as [cell|e]; [|reflexivity].
  simpl. rewrite IH.
  destruct (stored_draws element_do_draw np_convert s dtype n d)
    as [[vs d']|e]; [|reflexivity].
  simpl. do 3 f_equal. lia.
Qed.

(** Cells that were stored as the values drawn are those values. *)
Lemma stored_as_drawn (np_convert : Dtype -> pyval -> result pyval)
    dtype drawn cells :
  Forall2 (fun v cell => np_convert dtype v = Ok cell) drawn cells ->
  Forall (fun v => np_convert dtype v = Ok v) drawn ->
  cells = drawn.
Proof.
  induction 1 as [|v cell drawn cells Hv _ IH]; intros Hkeep; [reflexivity|].
  inversion Hkeep as [|? ? Hv' Hrest]; subst.
  rewrite Hv' in Hv. inversion Hv; subst. f_equal. apply IH. exact Hrest.
Qed.

(** The draw of an array strategy whose axes are not negative: the draws
    and assignments of the loop, under the shape. *)
Lemma do_draw_stored {Data : Type}
    (element_do_draw : strategy -> Data -> result (pyval * Data))
    (np_convert : Dtype -> pyval -> result pyval)
    element_strategy shape dtype data :
  Forall (fun n => 0 <= n) shape ->
  do_draw element_do_draw np_convert
    (ArrayStrategy element_strategy shape (np_prod shape) dtype) data =
    (do stored <- stored_draws element_do_draw np_convert element_strategy
                    dtype (Z.to_nat (np_prod shape)) data;
     Ok (VArray dtype shape (fst stored), snd stored)).
Proof.
  intros Hshape. pose proof (np_prod_nonneg shape Hshape) as Hn.
  unfold do_draw, np_empty, hrange.
  replace (np_prod shape <? 0) with false by (symmetry; lia).
  simpl. rewrite fill_seq by (rewrite length_replicate; lia).
  destruct (stored_draws element_do_draw np_convert element_strategy dtype
              (Z.to_nat (np_prod shape)) data) as [stored|e] eqn:Hstored;
    [|reflexivity].
  simpl. apply stored_draws_length in Hstored.
  rewrite np_reshape_ok; [reflexivity | exact Hshape |].
  rewrite Hstored. lia.
Qed.

(** C4.  For a non-empty shape of positive axes whose product [n] numpy
    can count, below [2^63], the draw of an array strategy is [n] draws of
    the element strategy in sequence on the one stream, each assigned to the
    next cell of the flat buffer before the next draw is made: cell [i] is
    what the assignment stores of the value drawn from the stream the first
    [i] draws left (that value itself, where the assignment stores values
    as they are), the stream returned is the one the last draw left, and the
    first exception of a draw or an assignment is the exception of the
    draw.  The array returned has the shape asked for and [n] cells, and a
    stream that counts draws has counted [n] more. *)
Theorem ArrayStrategy_do_draw_sequential {Data : Type}
    (element_do_draw : strategy -> Data -> result (pyval * Data))
    (np_convert : Dtype -> pyval -> result pyval)
    element_strategy shape dtype self data :
  shape <> [] ->
  Forall (fun n => 1 <= n) shape ->
  np_prod shape < 2 ^ 63 ->
  ArrayStrategy_init element_strategy shape dtype = Ok self ->
  do_draw element_do_draw np_convert self data =
    (do stored <- stored_draws element_do_draw np_convert element_strategy
                    dtype (Z.to_nat (np_prod shape)) data;
     Ok (VArray dtype shape (fst stored), snd stored)) /\
  (forall arr data',
     do_draw element_do_draw np_convert self data = Ok (arr, data') ->
     exists flat drawn,
       arr = VArray dtype shape flat /\
       Z.of_nat (length flat) = np_prod shape /\
       sequential_draws element_do_draw element_strategy
         (length flat) data = Ok (drawn, data') /\
       Forall2 (fun v cell => np_convert dtype v = Ok cell) drawn flat /\
       (Forall (fun v => np_convert dtype v = Ok v) drawn -> flat = drawn) /\
       forall i v,
         drawn !! i = Some v ->
         exists before after,
           sequential_draws element_do_draw element_strategy i data =
             Ok (take i drawn, before) /\
           element_do_draw element_strategy before = Ok (v, after)) /\
  (forall count,
     do_draw (counting element_do_draw) np_convert self (data, count) =
       (do r <- do_draw element_do_draw np_convert self data;
        Ok (fst r, (snd r, (Z.to_nat (np_prod shape) + count)%nat)))).
Proof.
  intros Hne Hpos Hfits Hinit.
  pose proof (positive_axes_nonneg shape Hpos) as Hshape.
  assert (self = ArrayStrategy element_strategy shape (np_prod shape) dtype)
    as ->.
  { unfold ArrayStrategy_init in Hinit. destruct shape; [contradiction|].
    now inversion Hinit. }
  pose proof (np_prod_nonneg shape Hshape) as Hn.
  rewrite !do_draw_stored by exact Hshape.
  split; [reflexivity|]. split.
  - intros arr data' H. apply bind_ok in H as ([flat d'] & Hstored & H).
    inversion H; subst. simpl.
    pose proof (stored_draws_length _ _ _ _ _ _ _ Hstored) as Hlen.
    simpl in Hlen.
    apply stored_draws_drawn in Hstored as (drawn & Hdrawn & Hall).
    exists flat, drawn. rewrite Hlen. split; [reflexivity|].
    split; [lia|]. split; [exact Hdrawn|]. split; [exact Hall|].
    split; [now apply stored_as_drawn|].
    intros i v Hi.
    apply (sequential_draws_nth _ _ _ _ _ i v Hdrawn Hi).
  - intros count. rewrite do_draw_stored by exact Hshape.
    rewrite stored_draws_counting.
    destruct (stored_draws element_do_draw np_convert element_strategy dtype
                (Z.to_nat (np_prod shape)) data) as [[flat d']|e];
      reflexivity.
Qed.

Lemma ArrayStrategy_do_draw_sequential_witness :
  do_draw counter_draw store_int (ArrayStrategy Booleans [2; 3] 6 uint8)
    0%nat =
    Ok (VArray uint8 [2; 3]
          [VScalar uint8 (VInt 0); VScalar uint8 (VInt 1);
           VScalar uint8 (VInt 2); VScalar uint8 (VInt 3);
           VScalar uint8 (VInt 4); VScalar uint8 (VInt 5)], 6%nat).
Proof.
  pose proof (ArrayStrategy_do_draw_sequential counter_draw store_int
                Booleans [2; 3] uint8
                (ArrayStrategy Booleans [2; 3] 6 uint8) 0%nat) as H.
  destruct H as (H & _).
  - discriminate.
  - repeat constructor; lia.
  - simpl. lia.
  - reflexivity.
  - rewrite H. reflexivity.
Defined.

(** Shape [(2, 3)]: six draws, the cell at row [i] and column [j] holds
    draw number [3 * i + j]. *)
Example draw_2_3_row_major :
  exists arr,
    do_draw counter_draw store_int (ArrayStrategy Booleans [2; 3] 6 uint8)
      0%nat = Ok (arr, 6%nat) /\
    getitem arr [0; 0] = Some (VScalar uint8 (VInt 0)) /\
    getitem arr [0; 2] = Some (VScalar uint8 (VInt 2)) /\
    getitem arr [1; 0] = Some (VScalar uint8 (VInt 3)) /\
    getitem arr [1; 2] = Some (VScalar uint8 (VInt 5)).
Proof. eexists. repeat split. Qed.

(** The integers 0, 1, 2 drawn into a boolean array: the cells hold
    [False], [True], [True]. *)
Example draw_converted :
  do_draw counter_draw store_int (ArrayStrategy Booleans [3] 3 bool_dtype)
    0%nat =
    Ok (VArray bool_dtype [3]
          [VScalar bool_dtype (VBool false); VScalar bool_dtype (VBool true);
           VScalar bool_dtype (VBool true)], 3%nat).
Proof. reflexivity. Qed.

(** ** [str.format] on templates with literal text *)

Lemma format_go_literal_char fuel c t args kw :
  Ascii.eqb c "{" = false ->
  Ascii.eqb c "}" = false ->
  format_go (S fuel) (String c t) args kw =
    (do out <- format_go fuel t args kw; Ok (String c out)).
Proof. intros H1 H2. simpl. rewrite H1, H2. reflexivity. Qed.

Lemma format_first_char c t args kw s :
  Ascii.eqb c "{" = false ->
  Ascii.eqb c "}" = false ->
  format (String c t) args kw = Ok s ->
  exists out, s = String c out.
Proof.
  intros H1 H2 H. unfold format in H.
  change (String.length (String c t)) with (S (String.length t)) in H.
  rewrite format_go_literal_char in H by assumption.
  apply bind_ok in H as (out & _ & H). inversion H. eauto.
Qed.

Lemma string_length_append (p r : string) :
  String.length (p +:+ r) = (String.length p + String.length r)%nat.
Proof.
  induction p as [|c p IH]; [reflexivity|].
  change (S (String.length (p +:+ r)) =
          S (String.length p + String.length r)). now rewrite IH.
Qed.

Lemma format_go_literal p : forall fuel rest args kw,
  brace_free p = true ->
  format_go (String.length p + fuel) (p +:+ rest) args kw =
    (do out <- format_go fuel rest args kw; Ok (p +:+ out)).
Proof.
  induction p as [|c p IH]; intros fuel rest args kw Hp.
  - change (format_go fuel rest args kw =
            (do out <- format_go fuel rest args kw; Ok out)).
    destruct (format_go fuel rest args kw); reflexivity.
  - simpl in Hp. apply andb_prop in Hp as [Hc Hp].
    apply andb_prop in Hc as [H1 H2].
    apply negb_true_iff in H1, H2.
    change (format_go (S (String.length p + fuel))
              (String c (p +:+ rest)) args kw =
            (do out <- format_go fuel rest args kw;
             Ok (String c (p +:+ out)))).
    rewrite format_go_literal_char by assumption.
    rewrite IH by exact Hp.
    destruct (format_go fuel rest args kw); reflexivity.
Qed.

(** A template of literal text and one final field: the text, then the
    argument as [str] prints it. *)
Lemma format_one_field p a :
  brace_free p = true ->
  format (p +:+ "{}") [a] [] = Ok (p +:+ py_str a).
Proof.
  intros Hp. unfold format. rewrite string_length_append.
  rewrite format_go_literal by exact Hp.
  change (format_go (String.length "{}") "{}" [a] [])
    with (Ok (A := string) (py_str a +:+ "")).
  simpl. now rewrite append_empty_r.
Qed.

Lemma contains_field_brace_free k :
  brace_free k = true -> contains "{}" k = false.
Proof.
  induction k as [|c k IH]; intros Hk; [reflexivity|].
  simpl in Hk. apply andb_prop in Hk as [Hc Hk].
  apply andb_prop in Hc as [H1 _]. apply negb_true_iff in H1.
  simpl. rewrite H1. simpl. apply IH. exact Hk.
Qed.

(** ** [sorted(set(..))] *)

Lemma insert_sorted_In x y l : In y (insert_sorted x l) <-> y = x \/ In y l.
Proof.
  induction l as [|z l IH]; simpl.
  - intuition.
  - destruct (x <? z) eqn:Hlt; [simpl; intuition|].
    destruct (x =? z) eqn:Heq.
    + apply Z.eqb_eq in Heq. subst. simpl. intuition.
    + simpl. rewrite IH. intuition.
Qed.

Lemma insert_sorted_sorted x l :
  StronglySorted Z.lt l -> StronglySorted Z.lt (insert_sorted x l).
Proof.
  induction 1 as [|z l Hl IH Hz]; simpl.
  - repeat constructor.
  - destruct (x <? z) eqn:Hlt.
    + apply Z.ltb_lt in Hlt. constructor; [now constructor|].
      constructor; [exact Hlt|].
      eapply Forall_impl; [exact Hz|]. simpl. intros; lia.
    + destruct (x =? z) eqn:Heq; [now constructor|].
      apply Z.ltb_ge in Hlt. apply Z.eqb_neq in Heq.
      constructor; [exact IH|].
      apply Forall_forall. intros y Hy.
      apply list_elem_of_In, insert_sorted_In in Hy as [->|Hy]; [lia|].
      rewrite Forall_forall in Hz. apply Hz. now apply list_elem_of_In.
Qed.

Lemma sorted_set_In y l : In y (sorted_set l) <-> In y l.
Proof.
  induction l as [|x l IH]; simpl; [reflexivity|].
  rewrite insert_sorted_In, IH. intuition.
Qed.

Lemma sorted_set_sorted l : StronglySorted Z.lt (sorted_set l).
Proof.
  induction l as [|x l IH]; simpl; [constructor|].
  now apply insert_sorted_sorted.
Qed.

(** ** [dtype_factory] *)

Lemma bind_ext {A B} (r : result A) (k1 k2 : A -> result B) :
  (forall a, k1 a = k2 a) -> bind r k1 = bind r k2.
Proof. intros H. destruct r; simpl; [apply H | reflexivity]. Qed.

Lemma dtype_factory_eq kind sizes valid_sizes endianness :
  In endianness valid_endian ->
  dtype_factory kind sizes valid_sizes endianness =
    (do l <- checked_sizes sizes valid_sizes;
     Ok (formatted kind l endianness)).
Proof.
  intros He. apply existsb_eqb_In in He.
  unfold dtype_factory. rewrite He.
  change (call_check_argument
            [VBool true; VStr "Unknown endianness: was {}, must be in {}";
             VTuple (VStr <$> valid_endian)] []) with (Ok tt).
  unfold bind at 1. unfold checked_sizes.
  apply bind_ext. intros l. unfold formatted.
  destruct (String.eqb endianness "?"); reflexivity.
Qed.

Lemma forallb_existsb_In (valid l : list Z) :
  forallb (fun s => existsb (Z.eqb s) valid) l = true <->
  Forall (fun s => In s valid) l.
Proof.
  rewrite forallb_forall, Forall_forall. split; intros H s Hs.
  - apply list_elem_of_In, H in Hs.
    apply existsb_exists in Hs as (x & Hx & Heq).
    apply Z.eqb_eq in Heq. now subst.
  - apply existsb_exists. exists s. split; [|apply Z.eqb_refl].
    apply H. now apply list_elem_of_In.
Qed.

Lemma checked_sizes_empty sizes valid :
  sizes_list sizes = [] ->
  checked_sizes sizes (Some valid) =
    Raise (InvalidArgument "Dtype must have at least one possible size.").
Proof.
  intros H. unfold checked_sizes.
  change (match sizes with SizesInt n => [n] | SizesSeq l => l end)
    with (sizes_list sizes).
  rewrite H. reflexivity.
Qed.

Lemma checked_sizes_invalid sizes valid :
  sizes_list sizes <> [] ->
  ~ Forall (fun s => In s valid) (sizes_list sizes) ->
  is_invalid_argument (checked_sizes sizes (Some valid)) = true.
Proof.
  intros Hne Hbad. unfold checked_sizes.
  change (match sizes with SizesInt n => [n] | SizesSeq l => l end)
    with (sizes_list sizes).
  rewrite <- forallb_existsb_In in Hbad. apply not_true_is_false in Hbad.
  rewrite Hbad.
  destruct (sizes_list sizes) as [|s l]; [contradiction|]. reflexivity.
Qed.

Lemma checked_sizes_valid sizes valid :
  sizes_list sizes <> [] ->
  Forall (fun s => In s valid) (sizes_list sizes) ->
  checked_sizes sizes (Some valid) =
    Ok (sorted_set (map (fun s => s / 8) (sizes_list sizes))).
Proof.
  intros Hne Hall. unfold checked_sizes.
  change (match sizes with SizesInt n => [n] | SizesSeq l => l end)
    with (sizes_list sizes).
  apply forallb_existsb_In in Hall. rewrite Hall.
  destruct (sizes_list sizes) as [|s l]; [contradiction|]. reflexivity.
Qed.

Lemma checked_sizes_ok sizes valid l :
  checked_sizes sizes (Some valid) = Ok l ->
  sizes_list sizes <> [] /\
  Forall (fun s => In s valid) (sizes_list sizes) /\
  l = sorted_set (map (fun s => s / 8) (sizes_list sizes)).
Proof.
  intros H.
  destruct (sizes_list sizes) as [|s0 l0] eqn:Hl.
  { rewrite checked_sizes_empty in H by exact Hl. discriminate. }
  assert (Hne : sizes_list sizes <> []) by (rewrite Hl; discriminate).
  destruct (forallb (fun s => existsb (Z.eqb s) valid) (sizes_list sizes))
    eqn:Hall.
  - apply forallb_existsb_In in Hall.
    rewrite checked_sizes_valid in H by assumption.
    inversion H. rewrite <- Hl. auto.
  - assert (Hbad : ~ Forall (fun s => In s valid) (sizes_list sizes)).
    { rewrite <- forallb_existsb_In, Hall. discriminate. }
    pose proof (checked_sizes_invalid sizes valid Hne Hbad) as Hinv.
    rewrite H in Hinv. discriminate.
Qed.

Lemma In_fmap_VInt v (l : list Z) :
  In v (VInt <$> l) -> exists b, v = VInt b /\ In b l.
Proof.
  induction l as [|x l IH]; simpl; [contradiction|].
  intros [<-|H]; [eauto|]. destruct (IH H) as (b & -> & Hb). eauto.
Qed.

Lemma In_fmap_VInt_intro b (l : list Z) : In b l -> In (VInt b) (VInt <$> l).
Proof.
  induction l as [|x l IH]; simpl; [contradiction|].
  intros [->|H]; auto.
Qed.

Lemma draws_sampled_inv l v : draws (SampledFrom l) v -> In v l.
Proof. intros H. now inversion H. Qed.

Lemma draws_one_of_inv l v :
  draws (OneOf l) v -> exists s, In s l /\ draws s v.
Proof. intros H. inversion H; subst. eauto. Qed.

(** What a formatted sample is: the template filled with one of the sizes. *)
Lemma draws_template_inv template (l : list Z) v :
  draws (Map (FFormat template) (SampledFrom (VInt <$> l))) v ->
  exists b s, In b l /\ format template [VInt b] [] = Ok s /\ v = VStr s.
Proof.
  intros H. apply draws_map_inv in H as (x & Hx & Hv).
  apply draws_sampled_inv, In_fmap_VInt in Hx as (b & -> & Hb).
  simpl in Hv. apply bind_ok in Hv as (s & Hs & Hv). inversion Hv.
  eauto.
Qed.

Lemma draws_template_intro template (l : list Z) b s :
  In b l -> format template [VInt b] [] = Ok s ->
  draws (Map (FFormat template) (SampledFrom (VInt <$> l))) (VStr s).
Proof.
  intros Hb Hs. apply (draws_map _ _ (VInt b)).
  - apply draws_sampled. now apply In_fmap_VInt_intro.
  - simpl. rewrite Hs. reflexivity.
Qed.

Lemma formatted_either k (l : list Z) :
  formatted k l "?" = OneOf [formatted k l "<"; formatted k l ">"].
Proof. reflexivity. Qed.

Lemma formatted_fixed k (l : list Z) c :
  In c ["<"; ">"; "="]%char ->
  exists template,
    formatted k l (String c "") =
      Map (FFormat (String c template)) (SampledFrom (VInt <$> l)).
Proof.
  intros Hc. exists (if negb (contains "{}" k) then k +:+ "{}" else k).
  destruct Hc as [<-|[<-|[<-|[]]]]; reflexivity.
Qed.

(** The descriptors of the unsigned family: whatever byte-order character
    is written before it, the type string of a valid width [s] parses
    to the unsigned dtype of [s / 8] bytes. *)
Lemma unsigned_type_string c s v :
  In c ["<"; ">"; "="]%char ->
  In s [8; 16; 32; 64] ->
  (do str <- format (String c "u{}") [VInt (s / 8)] [];
   apply_fn FNpDtype (VStr str)) = Ok v ->
  exists d, v = VDtype d /\ kind d = "u" /\ itemsize d = s / 8.
Proof.
  intros Hc Hs H.
  destruct Hc as [<-|[<-|[<-|[]]]];
    destruct Hs as [<-|[<-|[<-|[<-|[]]]]];
    vm_compute in H; inversion H; subst;
    eexists; repeat split; reflexivity.
Qed.

Lemma draws_unsigned_template c (l : list Z) v :
  In c ["<"; ">"; "="]%char ->
  Forall (fun b => exists s, In s [8; 16; 32; 64] /\ b = s / 8) l ->
  draws (Map FNpDtype (Map (FFormat (String c "u{}"))
                         (SampledFrom (VInt <$> l)))) v ->
  exists d, v = VDtype d /\ kind d = "u" /\ In (itemsize d) l.
Proof.
  intros Hc Hl H. apply draws_map_inv in H as (x & Hx & Hv).
  apply draws_template_inv in Hx as (b & str & Hb & Hstr & ->).
  rewrite Forall_forall in Hl.
  destruct (Hl b) as (s & Hs & ->); [now apply list_elem_of_In|].
  destruct (unsigned_type_string c s v Hc Hs) as (d & -> & Hk & Hd).
  { rewrite Hstr. exact Hv. }
  exists d. rewrite Hd. auto.
Qed.

Lemma draws_unsigned_formatted endianness (l : list Z) v :
  In endianness valid_endian ->
  Forall (fun b => exists s, In s [8; 16; 32; 64] /\ b = s / 8) l ->
  draws (Map FNpDtype (formatted "u" l endianness)) v ->
  exists d, v = VDtype d /\ kind d = "u" /\ In (itemsize d) l.
Proof.
  intros He Hl H.
  destruct He as [<-|[<-|[<-|[<-|[]]]]].
  - apply draws_map_inv in H as (x & Hx & Hv).
    rewrite formatted_either in Hx.
    apply draws_one_of_inv in Hx as (s & Hs & Hx).
    destruct Hs as [<-|[<-|[]]].
    + apply (draws_unsigned_template "<"); [simpl; auto | exact Hl |].
      eapply draws_map; eassumption.
    + apply (draws_unsigned_template ">"); [simpl; auto | exact Hl |].
      eapply draws_map; eassumption.
  - apply (draws_unsigned_template "<"); [simpl; auto | exact Hl | exact H].
  - apply (draws_unsigned_template "="); [simpl; auto | exact Hl | exact H].
  - apply (draws_unsigned_template ">"); [simpl; auto | exact Hl | exact H].
Qed.

Lemma dtype_factory_bad_sizes k sizes valid endianness :
  In endianness valid_endian ->
  sizes_list sizes = [] \/
  Exists (fun s => ~ In s valid) (sizes_list sizes) ->
  is_invalid_argument
    (dtype_factory k sizes (Some valid) endianness) = true.
Proof.
  intros He H. rewrite dtype_factory_eq by exact He.
  destruct (sizes_list sizes) as [|s0 l0] eqn:Hl.
  - rewrite checked_sizes_empty by exact Hl. reflexivity.
  - destruct H as [H|H]; [discriminate|].
    assert (Hinv : is_invalid_argument
                     (checked_sizes sizes (Some valid)) = true).
    { apply checked_sizes_invalid; rewrite Hl; [discriminate|].
      intros Hall. apply Exists_exists in H as (s & Hs & Hbad).
      rewrite Forall_forall in Hall. apply Hbad, Hall, Hs. }
    destruct (checked_sizes sizes (Some valid)) as [l|[]];
      try discriminate. reflexivity.
Qed.

(** C6.  Sizes that are empty, or hold a size that is not a valid width,
    give [InvalidArgument] exactly when the endianness is one of the four
    values.  The endianness is checked first, and for any other endianness
    that check raises its [IndexError] whatever the sizes are, in
    [dtype_factory] and in a family built on it. *)
Theorem sizes_rejected_iff_endianness k sizes valid endianness :
  sizes_list sizes = [] \/
  Exists (fun s => ~ In s valid) (sizes_list sizes) ->
  (is_invalid_argument
     (dtype_factory k sizes (Some valid) endianness) = true <->
   In endianness valid_endian) /\
  (~ In endianness valid_endian ->
   dtype_factory k sizes (Some valid) endianness =
     Raise (IndexError "tuple index out of range") /\
   unsigned_integer_dtypes endianness sizes =
     Raise (IndexError "tuple index out of range")).
Proof.
  intros Hbad. split.
  - split.
    + intros H.
      destruct (existsb (String.eqb endianness) valid_endian) eqn:He;
        [now apply existsb_eqb_In|].
      rewrite dtype_factory_bad_endianness in H; [discriminate|].
      rewrite <- existsb_eqb_In, He. discriminate.
    + intros He. now apply dtype_factory_bad_sizes.
  - intros He. unfold unsigned_integer_dtypes.
    rewrite !dtype_factory_bad_endianness by exact He.
    split; reflexivity.
Qed.

Lemma sizes_rejected_iff_endianness_witness :
  is_invalid_argument
    (dtype_factory "u" (SizesSeq [7]) (Some [8; 16; 32; 64]) "x") = false /\
  unsigned_integer_dtypes "x" (SizesSeq [7]) =
    Raise (IndexError "tuple index out of range").
Proof.
  destruct (sizes_rejected_iff_endianness "u" (SizesSeq [7]) [8; 16; 32; 64]
              "x") as (_ & H).
  - right. apply Exists_cons_hd. simpl. lia.
  - destruct H as (H1 & H2).
    + unfold valid_endian. simpl. intros [H|[H|[H|[H|[]]]]]; discriminate H.
    + split; [rewrite H1; reflexivity | exact H2].
Defined.

(** X19.  In a call with one of the four endianness values and a set of
    valid widths: when the sizes asked for are empty, or one of them is not
    a valid width, [dtype_factory] raises [InvalidArgument]; otherwise it
    samples from the widths divided by 8, each once and in ascending order,
    exactly as it would from that list of bytes given directly; and the
    dtypes [unsigned_integer_dtypes] draws are unsigned with an item size
    that is a requested width in bytes. *)
Theorem dtype_factory_sizes k sizes valid endianness :
  In endianness valid_endian ->
  (sizes_list sizes = [] \/
   Exists (fun s => ~ In s valid) (sizes_list sizes) ->
   is_invalid_argument
     (dtype_factory k sizes (Some valid) endianness) = true) /\
  (sizes_list sizes <> [] ->
   Forall (fun s => In s valid) (sizes_list sizes) ->
   dtype_factory k sizes (Some valid) endianness =
     dtype_factory k
       (SizesSeq (sorted_set (map (fun s => s / 8) (sizes_list sizes))))
       None endianness /\
   dtype_factory k sizes (Some valid) endianness =
     Ok (formatted k
           (sorted_set (map (fun s => s / 8) (sizes_list sizes)))
           endianness) /\
   StronglySorted Z.lt
     (sorted_set (map (fun s => s / 8) (sizes_list sizes))) /\
   forall b,
     In b (sorted_set (map (fun s => s / 8) (sizes_list sizes))) <->
     exists s, In s (sizes_list sizes) /\ b = s / 8) /\
  (forall g v,
     unsigned_integer_dtypes endianness sizes = Ok g ->
     draws g v ->
     exists d, v = VDtype d /\ kind d = "u" /\
       In (8 * itemsize d) (sizes_list sizes)).
Proof.
  intros He. split; [|split].
  - intros H. now apply dtype_factory_bad_sizes.
  - intros Hne Hall. rewrite !dtype_factory_eq by exact He.
    rewrite checked_sizes_valid by assumption.
    repeat split; try reflexivity.
    + apply sorted_set_sorted.
    + intros Hb. apply sorted_set_In, in_map_iff in Hb as (s & <- & Hs).
      eauto.
    + intros (s & Hs & ->). apply sorted_set_In, in_map_iff. eauto.
  - intros g v Hg Hv.
    unfold unsigned_integer_dtypes, defines_dtype_strategy, defines_strategy
      in Hg.
    rewrite dtype_factory_eq in Hg by exact He.
    apply bind_ok in Hg as (s & Hs & Hg).
    apply bind_ok in Hs as (l & Hl & Hs).
    inversion Hg; subst g. inversion Hs; subst s. clear Hg Hs.
    apply checked_sizes_ok in Hl as (Hne & Hall & ->).
    rewrite Forall_forall in Hall.
    assert (Hbytes : forall b,
              In b (sorted_set (map (fun s => s / 8) (sizes_list sizes))) ->
              exists s, In s (sizes_list sizes) /\
                        In s [8; 16; 32; 64] /\ b = s / 8).
    { intros b Hb. apply sorted_set_In, in_map_iff in Hb as (s & <- & Hs).
      exists s. repeat split; [exact Hs|].
      apply Hall. now apply list_elem_of_In. }
    apply draws_unsigned_formatted in Hv as (d & -> & Hk & Hd);
      [|exact He|].
    + exists d. repeat split; [exact Hk|].
      apply Hbytes in Hd as (s & Hs & Hvalid & ->).
      destruct Hvalid as [<-|[<-|[<-|[<-|[]]]]]; exact Hs.
    + apply Forall_forall. intros b Hb.
      apply list_elem_of_In, Hbytes in Hb as (s & _ & Hvalid & ->). eauto.
Qed.

Lemma dtype_factory_sizes_witness :
  is_invalid_argument
    (dtype_factory "u" (SizesSeq [7]) (Some [8; 16; 32; 64]) "?") = true.
Proof.
  apply (dtype_factory_sizes "u" (SizesSeq [7]) [8; 16; 32; 64] "?").
  - simpl. auto.
  - right. apply Exists_cons_hd. simpl. lia.
Defined.

(** [unsigned_integer_dtypes(sizes=(7,))] and [sizes=()], with the message
    each raises. *)
Example unsigned_sizes_7 :
  unsigned_integer_dtypes default_endianness (SizesSeq [7]) =
    Raise (InvalidArgument
      "Invalid sizes: was (7,) must be an item or sequence in (8, 16, 32, 64)").
Proof. reflexivity. Qed.

Example unsigned_sizes_none :
  unsigned_integer_dtypes default_endianness (SizesSeq []) =
    Raise (InvalidArgument "Dtype must have at least one possible size.").
Proof. reflexivity. Qed.

(** [unsigned_integer_dtypes(sizes=(8, 16))], and the same widths repeated
    and out of order. *)
Example unsigned_sizes_8_16 :
  unsigned_integer_dtypes default_endianness (SizesSeq [16; 8; 16]) =
    Ok (Map FNpDtype
          (OneOf [Map (FFormat "<u{}") (SampledFrom [VInt 1; VInt 2]);
                  Map (FFormat ">u{}") (SampledFrom [VInt 1; VInt 2])])) /\
  unsigned_integer_dtypes default_endianness (SizesSeq [8; 16]) =
    unsigned_integer_dtypes default_endianness (SizesSeq [16; 8; 16]).
Proof. split; reflexivity. Qed.

(** ** Endianness *)

Lemma sorted_set_nonempty l : l <> [] -> exists b, In b (sorted_set l).
Proof.
  destruct l as [|x l]; [contradiction|]. intros _.
  exists x. apply sorted_set_In. now left.
Qed.

(** C7.  With endianness ['<'], ['>'] or ['='] every string the strategy of
    [dtype_factory] draws begins with that character.  With ['?'] the
    result is the union of the result for ['<'] and the result for ['>'],
    and when valid sizes are given and the kind is a plain code, a string
    beginning with ['<'] and one beginning with ['>'] can both be drawn. *)
Theorem dtype_factory_endianness k sizes valid_sizes :
  (forall c g v,
     In c ["<"; ">"; "="]%char ->
     dtype_factory k sizes valid_sizes (String c "") = Ok g ->
     draws g v ->
     first_char v = Some c) /\
  dtype_factory k sizes valid_sizes "?" =
    (do little <- dtype_factory k sizes valid_sizes "<";
     do big <- dtype_factory k sizes valid_sizes ">";
     Ok (OneOf [little; big])) /\
  (forall g,
     valid_sizes <> None ->
     brace_free k = true ->
     dtype_factory k sizes valid_sizes "?" = Ok g ->
     (exists v, draws g v /\ first_char v = Some "<"%char) /\
     (exists v, draws g v /\ first_char v = Some ">"%char) /\
     (forall v, draws g v ->
        first_char v = Some "<"%char \/ first_char v = Some ">"%char)).
Proof.
  assert (Hfixed : forall c l v,
            In c ["<"; ">"; "="]%char ->
            draws (formatted k l (String c "")) v -> first_char v = Some c).
  { intros c l v Hc Hv.
    destruct (formatted_fixed k l c Hc) as (template & Heq).
    rewrite Heq in Hv.
    apply draws_template_inv in Hv as (b & s & _ & Hs & ->).
    apply format_first_char in Hs as (out & ->); [reflexivity| |];
      destruct Hc as [<-|[<-|[<-|[]]]]; reflexivity. }
  split; [|split].
  - intros c g v Hc Hg Hv.
    rewrite dtype_factory_eq in Hg
      by (destruct Hc as [<-|[<-|[<-|[]]]]; simpl; auto).
    apply bind_ok in Hg as (l & _ & Hg). inversion Hg; subst g.
    now apply (Hfixed c l v).
  - rewrite !dtype_factory_eq by (simpl; auto).
    destruct (checked_sizes sizes valid_sizes); reflexivity.
  - intros g Hvalid Hk Hg.
    rewrite dtype_factory_eq in Hg by (simpl; auto).
    apply bind_ok in Hg as (l & Hl & Hg). inversion Hg; subst g. clear Hg.
    destruct valid_sizes as [valid|]; [|contradiction].
    apply checked_sizes_ok in Hl as (Hne & _ & ->).
    destruct (sorted_set_nonempty (map (fun s => s / 8) (sizes_list sizes)))
      as (b & Hb).
    { destruct (sizes_list sizes); [contradiction | discriminate]. }
    set (l := sorted_set (map (fun s => s / 8) (sizes_list sizes))) in *.
    rewrite formatted_either.
    assert (Hdraw : forall c,
              In c ["<"; ">"]%char ->
              draws (formatted k l (String c ""))
                    (VStr (String c k +:+ str_int b))).
    { intros c Hc.
      assert (Heq : formatted k l (String c "") =
                    Map (FFormat (String c k +:+ "{}"))
                      (SampledFrom (VInt <$> l))).
      { unfold formatted. rewrite contains_field_brace_free by exact Hk.
        destruct Hc as [<-|[<-|[]]]; reflexivity. }
      rewrite Heq. apply (draws_template_intro _ _ b); [exact Hb|].
      apply (format_one_field (String c k) (VInt b)).
      simpl. rewrite Hk.
      destruct Hc as [<-|[<-|[]]]; reflexivity. }
    split; [|split].
    + exists (VStr (String "<" k +:+ str_int b)). split; [|reflexivity].
      apply (draws_one_of _ (formatted k l "<")); [simpl; auto|].
      apply Hdraw. simpl; auto.
    + exists (VStr (String ">" k +:+ str_int b)). split; [|reflexivity].
      apply (draws_one_of _ (formatted k l ">")); [simpl; auto|].
      apply Hdraw. simpl; auto.
    + intros v Hv. apply draws_one_of_inv in Hv as (s & Hs & Hv).
      destruct Hs as [<-|[<-|[]]];
        [left; apply (Hfixed "<"%char l v)
        |right; apply (Hfixed ">"%char l v)];
        simpl; auto.
Qed.

Lemma dtype_factory_endianness_witness :
  (exists v,
     draws (formatted "c" [8; 16] "?") v /\ first_char v = Some "<"%char) /\
  (exists v,
     draws (formatted "c" [8; 16] "?") v /\ first_char v = Some ">"%char).
Proof.
  destruct (dtype_factory_endianness "c" default_complex_sizes
              (Some [64; 128; 192; 256])) as (_ & _ & H).
  destruct (H (formatted "c" [8; 16] "?")) as (Hlittle & Hbig & _);
    [discriminate | reflexivity | reflexivity |].
  split; assumption.
Defined.

(** [complex_number_dtypes(endianness='<')] formats little-endian type
    strings only. *)
Example complex_little_endian :
  complex_number_dtypes "<" default_complex_sizes =
    Ok (Map FNpDtype (Map (FFormat "<c{}") (SampledFrom [VInt 8; VInt 16]))).
Proof. reflexivity. Qed.

(** * Further properties *)

(** ** [from_dtype]: the integers drawn, and the kinds refused *)

Lemma dtype_type_kept d z :
  kind d = "u" \/ kind d = "i" -> 1 <= itemsize d ->
  - 2 ^ (4 * itemsize d - 1) <= z <= 2 ^ (4 * itemsize d - 1) ->
  (kind d = "u" -> 0 <= z) ->
  dtype_type d (VInt z) = VScalar d (VInt z).
Proof.
  intros Hk Hs Hz Hu.
  assert (2 ^ (4 * itemsize d - 1) < 2 ^ (8 * itemsize d - 1))
    by (apply pow2_lt; lia).
  assert (2 ^ (8 * itemsize d - 1) < 2 ^ (8 * itemsize d))
    by (apply pow2_lt; lia).
  unfold dtype_type. destruct Hk as [Hk|Hk]; rewrite Hk; simpl.
  - rewrite wrap_int_unsigned; [reflexivity | exact Hk |].
    specialize (Hu Hk). lia.
  - rewrite wrap_int_signed; [reflexivity | exact Hk | lia | lia].
Qed.

Lemma draws_integers_map d lo hi v :
  kind d = "u" \/ kind d = "i" -> 1 <= itemsize d ->
  - 2 ^ (4 * itemsize d - 1) <= lo -> hi <= 2 ^ (4 * itemsize d - 1) ->
  (kind d = "u" -> 0 <= lo) ->
  draws (Map (FDtypeType d) (Integers lo hi)) v <->
  exists z, v = VScalar d (VInt z) /\ lo <= z <= hi.
Proof.
  intros Hk Hs Hlo Hhi Hu. split.
  - intros H. apply draws_map_inv in H as (x & Hx & Hv).
    inversion Hx; subst. unfold apply_fn in Hv.
    rewrite dtype_type_kept in Hv; [|assumption|assumption|lia|].
    + inversion Hv. eauto.
    + intros Hku. specialize (Hu Hku). lia.
  - intros (z & -> & Hz). apply (draws_map _ _ (VInt z)).
    + now apply draws_integers.
    + unfold apply_fn.
      rewrite dtype_type_kept; [reflexivity|assumption|assumption|lia|].
      intros Hku. specialize (Hu Hku). lia.
Qed.

(** X1.  The integers [from_dtype] draws for an integer dtype of [s] bytes
    are exactly those its shifts by [4 * s - 1] bound: [0 .. 2^(4s-1)] when
    unsigned, [-2^(4s-1) .. 2^(4s-1) - 1] when signed, each as a scalar of
    the dtype. *)
Theorem from_dtype_integer_draws d :
  1 <= itemsize d ->
  (kind d = "u" ->
   exists s, from_dtype d = Ok s /\
     forall v, draws s v <->
       exists z, v = VScalar d (VInt z) /\
                 0 <= z <= 2 ^ (4 * itemsize d - 1)) /\
  (kind d = "i" ->
   exists s, from_dtype d = Ok s /\
     forall v, draws s v <->
       exists z, v = VScalar d (VInt z) /\
                 - 2 ^ (4 * itemsize d - 1) <= z <= 2 ^ (4 * itemsize d - 1) - 1).
Proof.
  intros Hs.
  assert (0 < 2 ^ (4 * itemsize d - 1)) by (apply Z.pow_pos_nonneg; lia).
  split; intros Hk; eexists.
  - split; [now apply from_dtype_unsigned|]. intros v.
    apply draws_integers_map; auto; lia.
  - split; [now apply from_dtype_signed|]. intros v.
    apply draws_integers_map; auto; try lia.
    intros Hu. rewrite Hk in Hu. discriminate.
Qed.

Lemma from_dtype_integer_draws_witness :
  exists s, from_dtype uint8 = Ok s /\
    forall v, draws s v <->
      exists z, v = VScalar uint8 (VInt z) /\ 0 <= z <= 8.
Proof.
  destruct (from_dtype_integer_draws uint8) as (H & _); [simpl; lia|].
  apply H. reflexivity.
Defined.

(** X2.  [from_dtype] raises [InvalidArgument] exactly for the kinds it has
    no branch for, and the message then names the dtype. *)
Theorem from_dtype_invalid_argument d msg :
  from_dtype d = Raise (InvalidArgument msg) <->
  ~ In (kind d) inferred_kinds /\
  msg = "No strategy inference for " +:+ name d.
Proof.
  assert (Hmsg : format "No strategy inference for {}" [VDtype d] [] =
                 Ok ("No strategy inference for " +:+ name d)).
  { change (format "No strategy inference for {}" [VDtype d] [])
      with (Ok (A := string)
              ("No strategy inference for " +:+ (name d +:+ ""))).
    now rewrite append_empty_r. }
  unfold from_dtype, py_lshift, inferred_kinds. rewrite Hmsg.
  simpl existsb. rewrite <- existsb_eqb_In. simpl existsb.
  destruct (String.eqb (kind d) "b"); simpl; [split; [discriminate|tauto]|].
  destruct (String.eqb (kind d) "f"); simpl; [split; [discriminate|tauto]|].
  destruct (String.eqb (kind d) "c"); simpl; [split; [discriminate|tauto]|].
  destruct (String.eqb (kind d) "S"); simpl; [split; [discriminate|tauto]|].
  destruct (String.eqb (kind d) "a"); simpl; [split; [discriminate|tauto]|].
  destruct (String.eqb (kind d) "V"); simpl; [split; [discriminate|tauto]|].
  destruct (String.eqb (kind d) "u"); simpl.
  { destruct (Z.ltb_spec (4 * itemsize d - 1) 0) as [Hlt|Hge]; simpl;
      [split; solve [discriminate | tauto]|].
    rewrite st_integers_ok by (rewrite Z.shiftl_1_l; apply Z.pow_nonneg; lia).
    simpl. split; solve [discriminate | tauto]. }
  destruct (String.eqb (kind d) "i"); simpl.
  { destruct (Z.ltb_spec (4 * itemsize d - 1) 0) as [Hlt|Hge]; simpl;
      [split; solve [discriminate | tauto]|].
    assert (0 < 2 ^ (4 * itemsize d - 1)) by (apply Z.pow_pos_nonneg; lia).
    rewrite st_integers_ok by (rewrite Z.shiftl_mul_pow2 by lia; lia).
    simpl. split; solve [discriminate | tauto]. }
  destruct (String.eqb (kind d) "U"); simpl; [split; [discriminate|tauto]|].
  split.
  - intros H. inversion H. split; [discriminate | reflexivity].
  - intros (_ & ->). reflexivity.
Qed.

(** ** [arrays]: what it raises, and what its strategy draws *)

Lemma np_dtype_code_raises code e :
  np_dtype_code code = Raise e -> exists m, e = TypeError m.
Proof.
  unfold np_dtype_code.
  destruct (String.eqb code "?"); [discriminate|].
  destruct (String.eqb code "O"); [discriminate|].
  destruct code as [|k digits]; [intros H; inversion H; eauto|].
  destruct (parse_digits digits) as [n|]; [|intros H; inversion H; eauto].
  repeat match goal with
         | |- context [if ?b then _ else _] => destruct b
         end;
    intros H; inversion H; eauto.
Qed.

Lemma np_dtype_raises s e :
  np_dtype s = Raise e -> exists m, e = TypeError m.
Proof.
  unfold np_dtype. destruct s as [|c rest]; [intros H; inversion H; eauto|].
  destruct (is_order_char c); apply np_dtype_code_raises.
Qed.

Lemma from_dtype_raises d e :
  from_dtype d = Raise e ->
  (exists m, e = InvalidArgument m) \/ (exists m, e = ValueError m).
Proof.
  unfold from_dtype, py_lshift, st_integers.
  destruct (format "No strategy inference for {}" [VDtype d] []) eqn:Hmsg;
    [|discriminate Hmsg].
  repeat match goal with
         | |- context [if ?b then _ else _] => destruct b; simpl
         end;
    intros H; inversion H; eauto.
Qed.

Lemma arrays_eq dtype shape elements :
  arrays dtype shape elements =
    (do d <- as_dtype dtype;
     do e <- element_strategy_of d elements;
     match shape_list shape with
     | [] => if String.eqb (kind d) "O" then Ok ReturnsNone
             else Ok (Strategy e)
     | l => Ok (Strategy (ArrayStrategy e l (np_prod l) d))
     end).
Proof.
  unfold arrays. apply bind_ext. intros d.
  apply bind_ext. intros e.
  change (match shape with ShapeInt n => [n] | ShapeSeq l => l end)
    with (shape_list shape).
  destruct (shape_list shape) as [|n l]; simpl.
  - destruct (String.eqb (kind d) "O"); reflexivity.
  - reflexivity.
Qed.

(** X3.  [arrays] raises only what normalising the dtype or inferring the
    element strategy raises, whatever the shape: with a dtype object and
    [elements] given it always returns, and it never fails the
    [assert shape] of [ArrayStrategy]. *)
Theorem arrays_raises dtype shape elements e :
  (arrays dtype shape elements = Raise e <->
   as_dtype dtype = Raise e \/
   exists d, as_dtype dtype = Ok d /\ elements = None /\
             from_dtype d = Raise e) /\
  arrays dtype shape elements <> Raise AssertionError.
Proof.
  assert (Hiff : arrays dtype shape elements = Raise e <->
            as_dtype dtype = Raise e \/
            exists d, as_dtype dtype = Ok d /\ elements = None /\
                      from_dtype d = Raise e).
  { rewrite arrays_eq.
    destruct (as_dtype dtype) as [d|e0]; simpl.
    - destruct elements as [el|]; simpl.
      + split.
        * destruct (shape_list shape); [|discriminate].
          destruct (String.eqb (kind d) "O"); discriminate.
        * intros [H|(d' & _ & H & _)]; discriminate.
      + destruct (from_dtype d) as [el|e0] eqn:Hfrom; simpl.
        * split.
          -- destruct (shape_list shape); [|discriminate].
             destruct (String.eqb (kind d) "O"); discriminate.
          -- intros [H|(d' & Hd & _ & H)]; [discriminate|].
             inversion Hd; subst. rewrite Hfrom in H. discriminate.
        * split.
          -- intros H. right. exists d. rewrite Hfrom.
             repeat split. now inversion H.
          -- intros [H|(d' & Hd & _ & H)]; [discriminate|].
             inversion Hd; subst. rewrite Hfrom in H. now inversion H.
    - split; [intros H; left; now inversion H|].
      intros [H|(d & H & _)]; [now inversion H | discriminate]. }
  split; [exact Hiff|].
  intros H. clear Hiff.
  rewrite arrays_eq in H.
  destruct dtype as [d|s]; simpl in H.
  - destruct elements as [el|]; simpl in H.
    + destruct (shape_list shape); [|discriminate].
      destruct (String.eqb (kind d) "O"); discriminate.
    + destruct (from_dtype d) as [el|e0] eqn:Hfrom; simpl in H.
      * destruct (shape_list shape); [|discriminate].
        destruct (String.eqb (kind d) "O"); discriminate.
      * inversion H; subst.
        apply from_dtype_raises in Hfrom as [(m & Hm)|(m & Hm)]; discriminate.
  - destruct (np_dtype s) as [d|e0] eqn:Hnp; simpl in H.
    + destruct elements as [el|]; simpl in H.
      * destruct (shape_list shape); [|discriminate].
        destruct (String.eqb (kind d) "O"); discriminate.
      * destruct (from_dtype d) as [el|e1] eqn:Hfrom; simpl in H.
        -- destruct (shape_list shape); [|discriminate].
           destruct (String.eqb (kind d) "O"); discriminate.
        -- inversion H; subst.
           apply from_dtype_raises in Hfrom as [(m & Hm)|(m & Hm)];
             discriminate.
    + inversion H; subst. apply np_dtype_raises in Hnp as (m & Hm).
      discriminate.
Qed.

Lemma do_draw_array_eq {Data : Type}
    (element_do_draw : strategy -> Data -> result (pyval * Data))
    (np_convert : Dtype -> pyval -> result pyval)
    e shape n d data :
  do_draw element_do_draw np_convert (ArrayStrategy e shape n d) data =
    if n <? 0 then Raise (ValueError "negative dimensions are not allowed")
    else
      do stored <- stored_draws element_do_draw np_convert e d
                     (Z.to_nat n) data;
      do arr <- np_reshape d (fst stored) shape;
      Ok (arr, snd stored).
Proof.
  unfold do_draw, np_empty, hrange.
  destruct (n <? 0); [reflexivity|]. simpl.
  rewrite fill_seq by (rewrite length_replicate; lia).
  destruct (stored_draws element_do_draw np_convert e d (Z.to_nat n) data);
    reflexivity.
Qed.

(** X4.  For a non-empty shape of positive axes whose product numpy can
    count, given as a tuple or as one integer, [arrays] returns a strategy
    whose draw is [product(shape)] draws of the element strategy in
    sequence, each assigned to the next cell, laid out under that shape: the
    cells are what the assignments store of the values drawn.  The element
    strategy is [elements], or the one [from_dtype] infers when [elements]
    is left out. *)
Theorem arrays_draw {Data : Type}
    (element_do_draw : strategy -> Data -> result (pyval * Data))
    (np_convert : Dtype -> pyval -> result pyval)
    dtype d shape elements e data :
  as_dtype dtype = Ok d ->
  element_strategy_of d elements = Ok e ->
  shape_list shape <> [] ->
  Forall (fun n => 1 <= n) (shape_list shape) ->
  np_prod (shape_list shape) < 2 ^ 63 ->
  exists s,
    arrays dtype shape elements = Ok (Strategy s) /\
    do_draw element_do_draw np_convert s data =
      (do stored <- stored_draws element_do_draw np_convert e d
                      (Z.to_nat (np_prod (shape_list shape))) data;
       Ok (VArray d (shape_list shape) (fst stored), snd stored)) /\
    (forall arr data',
       do_draw element_do_draw np_convert s data = Ok (arr, data') ->
       exists flat drawn,
         arr = VArray d (shape_list shape) flat /\
         sequential_draws element_do_draw e
           (Z.to_nat (np_prod (shape_list shape))) data =
           Ok (drawn, data') /\
         Forall2 (fun v cell => np_convert d v = Ok cell) drawn flat).
Proof.
  intros Hd He Hne Hpos Hfits.
  pose proof (positive_axes_nonneg _ Hpos) as Hshape.
  exists (ArrayStrategy e (shape_list shape) (np_prod (shape_list shape)) d).
  split; [|split].
  - rewrite arrays_eq, Hd. simpl. rewrite He. simpl.
    destruct (shape_list shape); [contradiction | reflexivity].
  - apply do_draw_stored. exact Hshape.
  - intros arr data' H. rewrite do_draw_stored in H by exact Hshape.
    apply bind_ok in H as ([flat d'] & Hstored & H). inversion H; subst.
    apply stored_draws_drawn in Hstored as (drawn & Hdrawn & Hall).
    exists flat, drawn. auto.
Qed.

Lemma arrays_draw_witness :
  exists s,
    arrays (TypeString "<u2") (ShapeInt 3) (Some Booleans) = Ok (Strategy s) /\
    do_draw counter_draw store_int s 0%nat =
      Ok (VArray {| kind := "u"; itemsize := 2; name := "uint16" |} [3]
            [VScalar {| kind := "u"; itemsize := 2; name := "uint16" |}
               (VInt 0);
             VScalar {| kind := "u"; itemsize := 2; name := "uint16" |}
               (VInt 1);
             VScalar {| kind := "u"; itemsize := 2; name := "uint16" |}
               (VInt 2)], 3%nat).
Proof.
  destruct (arrays_draw counter_draw store_int (TypeString "<u2")
              {| kind := "u"; itemsize := 2; name := "uint16" |}
              (ShapeInt 3) (Some Booleans) Booleans 0%nat)
    as (s & Hs & Hdraw & _).
  - reflexivity.
  - reflexivity.
  - discriminate.
  - repeat constructor. lia.
  - simpl. lia.
  - exists s. split; [exact Hs|]. rewrite Hdraw. reflexivity.
Defined.




(** ** [ArrayStrategy.do_draw]: negative axes, cells, indexes *)

(** The product of a shape, its negative axes apart from the others. *)
Lemma np_prod_split shape :
  np_prod shape =
    np_prod (filter (fun n => n < 0) shape) *
    np_prod (filter (fun n => 0 <= n) shape).
Proof.
  induction shape as [|n shape IH]; [reflexivity|].
  destruct (decide (n < 0)) as [Hn|Hn].
  - rewrite filter_cons_True by exact Hn.
    rewrite (filter_cons_False (fun n => 0 <= n)) by lia.
    simpl np_prod. rewrite IH. ring.
  - rewrite filter_cons_False by exact Hn.
    rewrite (filter_cons_True (fun n => 0 <= n)) by lia.
    simpl np_prod. rewrite IH. ring.
Qed.

Lemma np_reshape_negative d flat shape :
  Exists (fun n => n < 0) shape ->
  Z.of_nat (length flat) = np_prod shape ->
  exists e, np_reshape d flat shape = Raise e.
Proof.
  intros Hneg Hsize. unfold np_reshape.
  apply Exists_exists in Hneg as (x & Hx & Hxneg).
  assert (Hin : x ∈ filter (fun n => n < 0) shape)
    by (apply list_elem_of_filter; split; assumption).
  pose proof (np_prod_split shape) as Hprod.
  assert (Hknown : 0 <= np_prod (filter (fun n => 0 <= n) shape)).
  { apply np_prod_nonneg. apply Forall_forall. intros y Hy.
    apply list_elem_of_filter in Hy as (Hy & _). exact Hy. }
  destruct (filter (fun n => n < 0) shape) as [|a [|b rest]] eqn:Hfilter.
  - apply elem_of_nil in Hin. contradiction.
  - assert (Ha : a < 0).
    { assert (a ∈ filter (fun n => n < 0) shape) as Hmem
        by (rewrite Hfilter; left).
      apply list_elem_of_filter in Hmem as (Hmem & _). exact Hmem. }
    simpl np_prod in Hprod. simpl length.
    replace (np_prod (filter (fun n => 0 <= n) shape) =? 0) with true
      by (symmetry; apply Z.eqb_eq; nia).
    simpl. eauto.
  - simpl. eauto.
Qed.

(** X6.  A shape with a negative axis never gives an array, for axes and
    a product that fit in 64 bits: the draw raises.  When the product of
    the axes is negative it raises before any element is drawn; otherwise
    the elements are drawn and assigned first, an exception of a draw or
    an assignment is the exception of the draw, and after them the reshape
    raises. *)
Theorem do_draw_negative_axis {Data : Type}
    (element_do_draw : strategy -> Data -> result (pyval * Data))
    (np_convert : Dtype -> pyval -> result pyval)
    e shape d self data :
  ArrayStrategy_init e shape d = Ok self ->
  Exists (fun n => n < 0) shape ->
  Forall (fun n => - 2 ^ 63 <= n < 2 ^ 63) shape ->
  - 2 ^ 63 <= np_prod shape < 2 ^ 63 ->
  (exists exn, do_draw element_do_draw np_convert self data = Raise exn) /\
  (np_prod shape < 0 ->
   do_draw element_do_draw np_convert self data =
     Raise (ValueError "negative dimensions are not allowed")) /\
  (0 <= np_prod shape ->
   forall exn,
     stored_draws element_do_draw np_convert e d
       (Z.to_nat (np_prod shape)) data = Raise exn ->
     do_draw element_do_draw np_convert self data = Raise exn).
Proof.
  intros Hinit Hneg _ _.
  assert (self = ArrayStrategy e shape (np_prod shape) d) as ->.
  { unfold ArrayStrategy_init in Hinit. destruct shape; [inversion Hneg|].
    now inversion Hinit. }
  rewrite do_draw_array_eq.
  split; [|split].
  - destruct (np_prod shape <? 0) eqn:Hsign; [eauto|].
    destruct (stored_draws element_do_draw np_convert e d
                (Z.to_nat (np_prod shape)) data) as [stored|exn] eqn:Hstored;
      [|simpl; eauto].
    apply stored_draws_length in Hstored. simpl.
    destruct (np_reshape_negative d (fst stored) shape Hneg) as (exn & ->);
      [rewrite Hstored; lia|].
    simpl. eauto.
  - intros Hlt. replace (np_prod shape <? 0) with true by (symmetry; lia).
    reflexivity.
  - intros Hge exn Hstored.
    replace (np_prod shape <? 0) with false by (symmetry; lia).
    rewrite Hstored. reflexivity.
Qed.

Lemma do_draw_negative_axis_witness :
  exists exn,
    do_draw counter_draw store_int (ArrayStrategy Booleans [-2; -3] 6 uint8)
      0%nat = Raise exn.
Proof.
  destruct (do_draw_negative_axis counter_draw store_int Booleans [-2; -3]
              uint8 (ArrayStrategy Booleans [-2; -3] 6 uint8) 0%nat)
    as (H & _).
  - reflexivity.
  - apply Exists_cons_hd. lia.
  - repeat constructor; simpl; lia.
  - simpl. lia.
  - exact H.
Defined.

Lemma sequential_draws_Forall {Data : Type}
    (element_do_draw : strategy -> Data -> result (pyval * Data))
    (P : pyval -> Prop) s n :
  (forall data v data', element_do_draw s data = Ok (v, data') -> P v) ->
  forall data drawn,
    sequential_draws element_do_draw s n data = Ok drawn ->
    Forall P (fst drawn).
Proof.
  intros HP. induction n as [|n IH]; intros data drawn H.
  - inversion H. constructor.
  - rewrite sequential_draws_S in H.
    apply bind_ok in H as ([v d1] & Hdraw & H).
    apply bind_ok in H as (more & Hmore & H). inversion H; subst.
    simpl. constructor; [eapply HP; exact Hdraw | eapply IH; exact Hmore].
Qed.

(** Each cell stored comes from a value drawn. *)
Lemma stored_cells_drawn (np_convert : Dtype -> pyval -> result pyval)
    (P : pyval -> Prop) d drawn cells :
  Forall2 (fun v cell => np_convert d v = Ok cell) drawn cells ->
  Forall P drawn ->
  Forall (fun cell => exists v, P v /\ np_convert d v = Ok cell) cells.
Proof.
  induction 1 as [|v cell drawn cells Hv _ IH]; intros HP; [constructor|].
  inversion HP; subst. constructor; [eauto | now apply IH].
Qed.

(** X7.  Every cell of an array drawn holds what the assignment stores of
    a value the element strategy drew, so whatever holds of every value the
    element strategy draws holds of the value each cell was converted from:
    no cell is left as [np.empty] made it, and the buffer has [array_size]
    cells.  Stated for positive axes whose product numpy can count. *)
Theorem do_draw_cells {Data : Type}
    (element_do_draw : strategy -> Data -> result (pyval * Data))
    (np_convert : Dtype -> pyval -> result pyval)
    (P : pyval -> Prop) e shape d self data arr data' :
  (forall dt v dt', element_do_draw e dt = Ok (v, dt') -> P v) ->
  Forall (fun n => 1 <= n) shape ->
  np_prod shape < 2 ^ 63 ->
  ArrayStrategy_init e shape d = Ok self ->
  do_draw element_do_draw np_convert self data = Ok (arr, data') ->
  exists flat,
    arr = VArray d shape flat /\
    Forall (fun cell => exists v, P v /\ np_convert d v = Ok cell) flat /\
    Z.of_nat (length flat) = np_prod shape.
Proof.
  intros HP Hpos Hfits Hinit H.
  pose proof (positive_axes_nonneg _ Hpos) as Hshape.
  pose proof (np_prod_nonneg shape Hshape) as Hn.
  assert (self = ArrayStrategy e shape (np_prod shape) d) as ->.
  { unfold ArrayStrategy_init in Hinit. destruct shape; [discriminate|].
    now inversion Hinit. }
  rewrite do_draw_stored in H by exact Hshape.
  apply bind_ok in H as ([flat d'] & Hstored & H). inversion H; subst.
  pose proof (stored_draws_length _ _ _ _ _ _ _ Hstored) as Hlen.
  simpl in Hlen.
  apply stored_draws_drawn in Hstored as (drawn & Hdrawn & Hall).
  exists flat. split; [reflexivity|]. split.
  - eapply stored_cells_drawn; [exact Hall|].
    apply (sequential_draws_Forall element_do_draw P e _ HP _ _ Hdrawn).
  - simpl. rewrite Hlen. lia.
Qed.

Lemma do_draw_cells_witness :
  exists flat,
    VArray bool_dtype [3]
      [VScalar bool_dtype (VBool false); VScalar bool_dtype (VBool true);
       VScalar bool_dtype (VBool true)] = VArray bool_dtype [3] flat /\
    Forall (fun cell =>
              exists v, v <> VUninit /\ store_int bool_dtype v = Ok cell)
           flat /\
    Z.of_nat (length flat) = 3.
Proof.
  apply (do_draw_cells counter_draw store_int (fun v => v <> VUninit)
           Booleans [3] bool_dtype (ArrayStrategy Booleans [3] 3 bool_dtype)
           0%nat _ 3%nat).
  - intros dt v dt' H. inversion H. discriminate.
  - repeat constructor; lia.
  - simpl. lia.
  - reflexivity.
  - reflexivity.
Defined.

Lemma ravel_index_bounds shape idx :
  Forall2 (fun n i => 0 <= i < n) shape idx ->
  0 <= ravel_index shape idx < np_prod shape.
Proof.
  induction 1 as [|n i shape idx Hi _ IH]; simpl; [lia|]. nia.
Qed.

Lemma ravel_index_inj shape : forall idx idx',
  Forall2 (fun n i => 0 <= i < n) shape idx ->
  Forall2 (fun n i => 0 <= i < n) shape idx' ->
  ravel_index shape idx = ravel_index shape idx' ->
  idx = idx'.
Proof.
  induction shape as [|n shape IH]; intros idx idx' H H' Heq.
  - inversion H; inversion H'; reflexivity.
  - inversion H as [|? i ? rest Hi Hrest]; subst.
    inversion H' as [|? i' ? rest' Hi' Hrest']; subst.
    simpl in Heq.
    pose proof (ravel_index_bounds _ _ Hrest) as Hb.
    pose proof (ravel_index_bounds _ _ Hrest') as Hb'.
    assert (i = i') by nia. subst i'.
    f_equal. apply IH; [assumption | assumption | lia].
Qed.

Lemma in_bounds_nonneg shape idx :
  Forall2 (fun n i => 0 <= i < n) shape idx -> Forall (fun n => 0 <= n) shape.
Proof. induction 1; constructor; [lia | assumption]. Qed.

(** X8.  In an array drawn, the cell at an in-bounds multi-index holds
    what the assignment stored of the value drawn after as many earlier
    draws as the row-major offset of the index, and two different in-bounds
    indexes have different offsets: the cells of a shape of any rank are
    filled in row-major order, one draw each.  Stated for shapes whose
    product numpy can count. *)
Theorem drawn_array_row_major {Data : Type}
    (element_do_draw : strategy -> Data -> result (pyval * Data))
    (np_convert : Dtype -> pyval -> result pyval)
    e shape d self data arr data' idx :
  ArrayStrategy_init e shape d = Ok self ->
  np_prod shape < 2 ^ 63 ->
  do_draw element_do_draw np_convert self data = Ok (arr, data') ->
  Forall2 (fun n i => 0 <= i < n) shape idx ->
  (exists cell v earlier before after,
     getitem arr idx = Some cell /\
     sequential_draws element_do_draw e
       (Z.to_nat (ravel_index shape idx)) data = Ok (earlier, before) /\
     element_do_draw e before = Ok (v, after) /\
     np_convert d v = Ok cell) /\
  (forall idx',
     Forall2 (fun n i => 0 <= i < n) shape idx' ->
     ravel_index shape idx' = ravel_index shape idx ->
     idx' = idx).
Proof.
  intros Hinit Hfits H Hidx. split.
  - assert (self = ArrayStrategy e shape (np_prod shape) d) as ->.
    { unfold ArrayStrategy_init in Hinit. destruct shape; [discriminate|].
      now inversion Hinit. }
    pose proof (in_bounds_nonneg _ _ Hidx) as Hshape.
    pose proof (ravel_index_bounds _ _ Hidx) as Hb.
    rewrite do_draw_stored in H by exact Hshape.
    apply bind_ok in H as ([flat d'] & Hstored & H). inversion H; subst.
    pose proof (stored_draws_length _ _ _ _ _ _ _ Hstored) as Hlen.
    simpl in Hlen.
    apply stored_draws_drawn in Hstored as (drawn & Hdrawn & Hall).
    destruct (lookup_lt_is_Some_2 flat
                (Z.to_nat (ravel_index shape idx))) as (cell & Hcell); [lia|].
    destruct (Forall2_lookup_r _ _ _ _ _ Hall Hcell) as (v & Hv & Hconv).
    destruct (sequential_draws_nth _ _ _ _ _ _ _ Hdrawn Hv)
      as (before & after & Hprefix & Hdraw).
    exists cell, v, (take (Z.to_nat (ravel_index shape idx)) drawn),
      before, after.
    repeat split; assumption.
  - intros idx' Hidx' Heq. eapply ravel_index_inj; eassumption.
Qed.

Lemma drawn_array_row_major_witness :
  exists cell v earlier before after,
    getitem (VArray bool_dtype [2; 2]
               [VScalar bool_dtype (VBool false);
                VScalar bool_dtype (VBool true);
                VScalar bool_dtype (VBool true);
                VScalar bool_dtype (VBool true)]) [1; 0] = Some cell /\
    sequential_draws counter_draw Booleans
      (Z.to_nat (ravel_index [2; 2] [1; 0])) 0%nat = Ok (earlier, before) /\
    counter_draw Booleans before = Ok (v, after) /\
    store_int bool_dtype v = Ok cell.
Proof.
  destruct (drawn_array_row_major counter_draw store_int Booleans [2; 2]
              bool_dtype (ArrayStrategy Booleans [2; 2] 4 bool_dtype) 0%nat
              (VArray bool_dtype [2; 2]
                 [VScalar bool_dtype (VBool false);
                  VScalar bool_dtype (VBool true);
                  VScalar bool_dtype (VBool true);
                  VScalar bool_dtype (VBool true)]) 4%nat
              [1; 0]) as (H & _).
  - reflexivity.
  - simpl. lia.
  - reflexivity.
  - repeat constructor; lia.
  - exact H.
Defined.

(** ** Shapes drawn by [array_shapes], given to [arrays] *)

Lemma array_shapes_returns min_dims max_dims min_side max_side g :
  array_shapes min_dims max_dims min_side max_side = Ok g ->
  g = Map FTuple (Lists (Integers min_side max_side) min_dims max_dims).
Proof.
  unfold array_shapes, defines_strategy. intros H.
  apply bind_ok in H as (_ & _ & H). apply bind_ok in H as (_ & _ & H).
  apply bind_ok in H as (sides & Hsides & H).
  apply bind_ok in H as (shapes & Hshapes & H).
  unfold st_integers in Hsides.
  destruct (min_side >? max_side); [discriminate|].
  unfold st_lists in Hshapes.
  destruct (min_dims <? 0); [discriminate|].
  destruct (max_dims <? 0); [discriminate|].
  destruct (min_dims >? max_dims); [discriminate|].
  inversion Hsides; inversion Hshapes; inversion H; subst. reflexivity.
Qed.

Lemma array_shapes_draws_inv min_dims max_dims min_side max_side g v :
  1 <= min_dims -> 1 <= min_side ->
  array_shapes min_dims max_dims min_side max_side = Ok g ->
  draws g v ->
  exists sides,
    v = VTuple (VInt <$> sides) /\
    min_dims <= Z.of_nat (length sides) <= max_dims /\
    Forall (fun n => min_side <= n <= max_side) sides.
Proof.
  intros Hd Hs Hg Hv. apply array_shapes_returns in Hg. subst g.
  apply draws_map_inv in Hv as (x & Hx & Hv).
  inversion Hx as [| | | | | | | | |e lo hi vs Hlen Hall|]; subst.
  simpl in Hv. inversion Hv; subst.
  apply draws_integers_list in Hall as (sides & -> & Hsides).
  exists sides. rewrite length_fmap in Hlen. auto.
Qed.

Lemma np_prod_bounds lo hi l :
  1 <= lo ->
  Forall (fun n => lo <= n <= hi) l ->
  lo ^ Z.of_nat (length l) <= np_prod l <= hi ^ Z.of_nat (length l).
Proof.
  intros Hlo. induction 1 as [|n l Hn _ IH].
  - simpl. lia.
  - simpl length. rewrite Nat2Z.inj_succ, !Z.pow_succ_r by lia.
    simpl np_prod.
    assert (0 < lo ^ Z.of_nat (length l)) by (apply Z.pow_pos_nonneg; lia).
    split; nia.
Qed.

(** X9.  Every shape [array_shapes] draws under bounds
    [1 <= min_dims <= max_dims] and [1 <= min_side <= max_side] with
    [max_side ^ max_dims] below [2^63] is a shape [arrays] builds an array
    strategy on, and the number of cells of its arrays lies between
    [min_side ^ min_dims] and [max_side ^ max_dims]. *)
Theorem array_shapes_arrays min_dims max_dims min_side max_side g v
    dtype d elements e :
  1 <= min_dims <= max_dims ->
  1 <= min_side <= max_side ->
  max_side ^ max_dims < 2 ^ 63 ->
  array_shapes min_dims max_dims min_side max_side = Ok g ->
  draws g v ->
  as_dtype dtype = Ok d ->
  element_strategy_of d elements = Ok e ->
  exists sides,
    v = VTuple (VInt <$> sides) /\
    arrays dtype (ShapeSeq sides) elements =
      Ok (Strategy (ArrayStrategy e sides (np_prod sides) d)) /\
    min_side ^ min_dims <= np_prod sides <= max_side ^ max_dims /\
    np_prod sides < 2 ^ 63.
Proof.
  intros Hd Hs Hfits Hg Hv Hdt He.
  destruct (array_shapes_draws_inv min_dims max_dims min_side max_side g v)
    as (sides & -> & Hlen & Hsides); [lia | lia | exact Hg | exact Hv |].
  exists sides. split; [reflexivity|]. split.
  - rewrite arrays_eq, Hdt. simpl. rewrite He. simpl.
    destruct sides; [simpl in Hlen; lia | reflexivity].
  - destruct (np_prod_bounds min_side max_side sides) as (Hlow & Hhigh);
      [lia | exact Hsides |].
    assert (min_side ^ min_dims <= min_side ^ Z.of_nat (length sides))
      by (apply Z.pow_le_mono_r; lia).
    assert (max_side ^ Z.of_nat (length sides) <= max_side ^ max_dims)
      by (apply Z.pow_le_mono_r; lia).
    lia.
Qed.

Lemma array_shapes_arrays_witness :
  exists sides,
    VTuple [VInt 2; VInt 3] = VTuple (VInt <$> sides) /\
    arrays (IsDtype uint8) (ShapeSeq sides) (Some Booleans) =
      Ok (Strategy (ArrayStrategy Booleans sides (np_prod sides) uint8)) /\
    1 ^ 1 <= np_prod sides <= 10 ^ 3 /\
    np_prod sides < 2 ^ 63.
Proof.
  apply (array_shapes_arrays 1 3 1 10
           (Map FTuple (Lists (Integers 1 10) 1 3))
           (VTuple [VInt 2; VInt 3]) (IsDtype uint8) uint8
           (Some Booleans) Booleans); try lia; try reflexivity.
  apply (draws_map FTuple _ (VList [VInt 2; VInt 3])); [|reflexivity].
  apply draws_lists; [simpl; lia|].
  repeat constructor; lia.
Defined.

(** ** [dtype_factory]: strings, sizes, placeholder, messages *)

Lemma formatted_brace_free k (l : list Z) c :
  brace_free k = true ->
  In c ["<"; ">"; "="]%char ->
  formatted k l (String c "") =
    Map (FFormat (String c k +:+ "{}")) (SampledFrom (VInt <$> l)).
Proof.
  intros Hk Hc. unfold formatted.
  rewrite contains_field_brace_free by exact Hk.
  destruct Hc as [<-|[<-|[<-|[]]]]; reflexivity.
Qed.

Lemma draws_formatted_brace_free k (l : list Z) c v :
  brace_free k = true ->
  In c ["<"; ">"; "="]%char ->
  draws (formatted k l (String c "")) v <->
  exists b, In b l /\ v = VStr (String c k +:+ str_int b).
Proof.
  intros Hk Hc. rewrite formatted_brace_free by assumption.
  assert (Hfmt : forall b, format (String c k +:+ "{}") [VInt b] [] =
                           Ok (String c k +:+ str_int b)).
  { intros b. apply (format_one_field (String c k) (VInt b)).
    simpl. rewrite Hk. destruct Hc as [<-|[<-|[<-|[]]]]; reflexivity. }
  split.
  - intros H. apply draws_template_inv in H as (b & s & Hb & Hs & ->).
    rewrite Hfmt in Hs. inversion Hs. eauto.
  - intros (b & Hb & ->). eapply draws_template_intro; [exact Hb|].
    apply Hfmt.
Qed.

(** X10.  For a kind code without braces and valid sizes, the strings the
    strategy of [dtype_factory] draws are exactly
    [<endianness><kind><size / 8>] for the sizes asked for: with the one
    character given when the endianness is ['<'], ['>'] or ['='], and with
    ['<'] or ['>'] when it is ['?']. *)
Theorem dtype_factory_strings k sizes valid :
  brace_free k = true ->
  (forall c g v,
     In c ["<"; ">"; "="]%char ->
     dtype_factory k sizes (Some valid) (String c "") = Ok g ->
     (draws g v <->
      exists s, In s (sizes_list sizes) /\
                v = VStr (String c k +:+ str_int (s / 8)))) /\
  (forall g v,
     dtype_factory k sizes (Some valid) "?" = Ok g ->
     (draws g v <->
      exists s c, In s (sizes_list sizes) /\ In c ["<"; ">"]%char /\
                  v = VStr (String c k +:+ str_int (s / 8)))).
Proof.
  intros Hk.
  assert (Hbytes : forall b,
            In b (sorted_set (map (fun s => s / 8) (sizes_list sizes))) <->
            exists s, In s (sizes_list sizes) /\ b = s / 8).
  { intros b. rewrite sorted_set_In, in_map_iff. split.
    - intros (s & <- & Hs). eauto.
    - intros (s & Hs & ->). eauto. }
  split.
  - intros c g v Hc Hg.
    rewrite dtype_factory_eq in Hg
      by (destruct Hc as [<-|[<-|[<-|[]]]]; simpl; auto).
    apply bind_ok in Hg as (l & Hl & Hg). inversion Hg; subst g. clear Hg.
    apply checked_sizes_ok in Hl as (_ & _ & ->).
    rewrite draws_formatted_brace_free by assumption. split.
    + intros (b & Hb & ->). apply Hbytes in Hb as (s & Hs & ->). eauto.
    + intros (s & Hs & ->). exists (s / 8). split; [|reflexivity].
      apply Hbytes. eauto.
  - intros g v Hg.
    rewrite dtype_factory_eq in Hg by (simpl; auto).
    apply bind_ok in Hg as (l & Hl & Hg). inversion Hg; subst g. clear Hg.
    apply checked_sizes_ok in Hl as (_ & _ & ->).
    rewrite formatted_either. split.
    + intros H. apply draws_one_of_inv in H as (s & Hs & H).
      destruct Hs as [<-|[<-|[]]];
        apply draws_formatted_brace_free in H as (b & Hb & ->);
        try (simpl; auto; fail); try exact Hk;
        apply Hbytes in Hb as (s & Hs & ->).
      * exists s, "<"%char. simpl. auto.
      * exists s, ">"%char. simpl. auto.
    + intros (s & c & Hs & Hc & ->).
      apply (draws_one_of _
               (formatted k
                  (sorted_set (map (fun s => s / 8) (sizes_list sizes)))
                  (String c ""))).
      * destruct Hc as [<-|[<-|[]]]; simpl; auto.
      * apply draws_formatted_brace_free;
          [exact Hk | destruct Hc as [<-|[<-|[]]]; simpl; auto |].
        exists (s / 8). split; [|reflexivity]. apply Hbytes. eauto.
Qed.

Lemma dtype_factory_strings_witness :
  draws (formatted "u" [1; 2] "<") (VStr "<u2") <->
  exists s, In s [8; 16] /\ VStr "<u2" = VStr ("<u" +:+ str_int (s / 8)).
Proof.
  destruct (dtype_factory_strings "u" (SizesSeq [8; 16]) [8; 16; 32; 64])
    as (H & _); [reflexivity|].
  apply (H "<"%char (formatted "u" [1; 2] "<") (VStr "<u2")).
  - simpl. auto.
  - reflexivity.
Defined.

Lemma sorted_same_elements (l l' : list Z) :
  StronglySorted Z.lt l -> StronglySorted Z.lt l' ->
  (forall x, In x l <-> In x l') ->
  l = l'.
Proof.
  intros Hl. revert l'. induction Hl as [|a l Hl IH Ha]; intros l' Hl' Hsame.
  - destruct l' as [|b l']; [reflexivity|].
    destruct (proj2 (Hsame b)); simpl; auto.
  - destruct Hl' as [|b l' Hl' Hb].
    { destruct (proj1 (Hsame a)); simpl; auto. }
    rewrite Forall_forall in Ha, Hb.
    assert (a = b) as <-.
    { destruct (proj1 (Hsame a)) as [Hab|Hab]; [simpl; auto | auto |].
      destruct (proj2 (Hsame b)) as [Hba|Hba]; [simpl; auto | auto |].
      apply list_elem_of_In, Hb in Hab. apply list_elem_of_In, Ha in Hba.
      lia. }
    f_equal. apply IH; [exact Hl'|]. intros x. split; intros Hx.
    + destruct (proj1 (Hsame x)) as [Hax|Hx']; [simpl; auto | | exact Hx'].
      apply list_elem_of_In, Ha in Hx. lia.
    + destruct (proj2 (Hsame x)) as [Hax|Hx']; [simpl; auto | | exact Hx'].
      apply list_elem_of_In, Hb in Hx. lia.
Qed.

Lemma sorted_set_same_elements (l l' : list Z) :
  (forall x, In x l <-> In x l') -> sorted_set l = sorted_set l'.
Proof.
  intros Hsame. apply sorted_same_elements; try apply sorted_set_sorted.
  intros x. rewrite !sorted_set_In. apply Hsame.
Qed.

(** X11.  Among valid sizes only the set counts: two [sizes] arguments
    with the same members, in any order and with any repetitions, or one
    integer in place of the tuple holding it, give the same result. *)
Theorem sizes_order_irrelevant k sizes sizes' valid endianness :
  (forall s, In s (sizes_list sizes) <-> In s (sizes_list sizes')) ->
  Forall (fun s => In s valid) (sizes_list sizes) ->
  dtype_factory k sizes (Some valid) endianness =
    dtype_factory k sizes' (Some valid) endianness.
Proof.
  intros Hsame Hvalid.
  destruct (existsb (String.eqb endianness) valid_endian) eqn:He.
  - apply existsb_eqb_In in He. rewrite !dtype_factory_eq by exact He.
    destruct (sizes_list sizes) as [|s0 l0] eqn:Hl.
    + assert (Hl' : sizes_list sizes' = []).
      { destruct (sizes_list sizes') as [|s1 l1]; [reflexivity|].
        destruct (proj2 (Hsame s1)). simpl. auto. }
      rewrite !checked_sizes_empty by assumption. reflexivity.
    + rewrite <- Hl in Hsame, Hvalid.
      assert (Hne : sizes_list sizes <> []) by (rewrite Hl; discriminate).
      assert (Hne' : sizes_list sizes' <> []).
      { intros Hl'. rewrite Hl' in Hsame.
        destruct (proj1 (Hsame s0)). rewrite Hl. simpl. auto. }
      assert (Hvalid' : Forall (fun s => In s valid) (sizes_list sizes')).
      { rewrite Forall_forall in *. intros s Hs.
        apply Hvalid. apply list_elem_of_In, Hsame, list_elem_of_In.
        exact Hs. }
      rewrite !checked_sizes_valid by assumption.
      simpl. do 2 f_equal. apply sorted_set_same_elements.
      intros x. rewrite !in_map_iff.
      split; intros (s & <- & Hs); exists s; split; auto; now apply Hsame.
  - assert (Hbad : ~ In endianness valid_endian).
    { rewrite <- existsb_eqb_In, He. discriminate. }
    rewrite !dtype_factory_bad_endianness by exact Hbad. reflexivity.
Qed.

Lemma sizes_order_irrelevant_witness :
  dtype_factory "i" (SizesSeq [16; 8; 16]) (Some [8; 16; 32; 64]) "<" =
    dtype_factory "i" (SizesSeq [8; 16]) (Some [8; 16; 32; 64]) "<".
Proof.
  apply sizes_order_irrelevant.
  - intros s. simpl. tauto.
  - repeat (constructor; [simpl; tauto|]). constructor.
Defined.

Lemma contains_appended needle k : contains needle (k +:+ needle) = true.
Proof.
  induction k as [|c k IH].
  - change ("" +:+ needle) with needle.
    destruct needle as [|a needle]; [reflexivity|].
    assert (Hself : forall s, starts_with s s = true).
    { induction s as [|b s IHs]; [reflexivity|].
      simpl. rewrite Ascii.eqb_refl. exact IHs. }
    simpl. rewrite Ascii.eqb_refl, Hself. reflexivity.
  - change (String c k +:+ needle) with (String c (k +:+ needle)).
    simpl. rewrite IH. apply orb_true_r.
Qed.

(** X12.  A kind without the placeholder ["{}"] gets it appended, and a
    kind that has it is taken as it is: passing the kind with the
    placeholder already at its end changes nothing. *)
Theorem dtype_factory_placeholder k sizes valid_sizes endianness :
  contains "{}" k = false ->
  dtype_factory (k +:+ "{}") sizes valid_sizes endianness =
    dtype_factory k sizes valid_sizes endianness.
Proof.
  intros Hk. unfold dtype_factory.
  apply bind_ext. intros _. apply bind_ext. intros l.
  rewrite contains_appended, Hk. reflexivity.
Qed.

Lemma dtype_factory_placeholder_witness :
  dtype_factory "u{}" (SizesSeq [8]) (Some [8; 16; 32; 64]) "<" =
    dtype_factory "u" (SizesSeq [8]) (Some [8; 16; 32; 64]) "<".
Proof. apply (dtype_factory_placeholder "u"). reflexivity. Defined.

Lemma format_go_field fuel rest a args kw :
  format_go (S fuel) ("{}" +:+ rest) (a :: args) kw =
    (do out <- format_go fuel rest args kw; Ok (py_str a +:+ out)).
Proof. reflexivity. Qed.

Lemma format_two_fields p q a b :
  brace_free p = true -> brace_free q = true ->
  format (p +:+ "{}" +:+ q +:+ "{}") [a; b] [] =
    Ok (p +:+ py_str a +:+ q +:+ py_str b).
Proof.
  intros Hp Hq. unfold format. rewrite string_length_append.
  change (String.length ("{}" +:+ q +:+ "{}"))
    with (S (S (String.length (q +:+ "{}")))).
  rewrite string_length_append.
  rewrite format_go_literal by exact Hp.
  rewrite format_go_field.
  replace (S (String.length q + String.length "{}"))
    with (String.length q + 3)%nat by (simpl; lia).
  rewrite format_go_literal by exact Hq.
  change (format_go 3 "{}" [b] []) with (Ok (A := string) (py_str b +:+ "")).
  simpl. now rewrite append_empty_r.
Qed.

Lemma call_check_argument_truthy condition fail_message f_args :
  truthy condition = true ->
  call_check_argument (condition :: fail_message :: f_args) [] = Ok tt.
Proof.
  intros H. unfold call_check_argument, check_argument.
  rewrite H. reflexivity.
Qed.

Lemma call_check_argument_false template f_args :
  call_check_argument (VBool false :: VStr template :: f_args) [] =
    (do msg <- format template f_args []; Raise (InvalidArgument msg)).
Proof. reflexivity. Qed.

(** X13.  The messages of the two size checks: with an accepted
    endianness, no sizes raise "Dtype must have at least one possible
    size.", and a size that is not a valid width raises a message that
    shows the sizes asked for and the valid widths, both as tuples. *)
Theorem sizes_check_messages k sizes valid endianness :
  In endianness valid_endian ->
  (sizes_list sizes = [] ->
   dtype_factory k sizes (Some valid) endianness =
     Raise (InvalidArgument "Dtype must have at least one possible size.")) /\
  (sizes_list sizes <> [] ->
   Exists (fun s => ~ In s valid) (sizes_list sizes) ->
   dtype_factory k sizes (Some valid) endianness =
     Raise (InvalidArgument
       ("Invalid sizes: was " +:+
        py_repr (VTuple (VInt <$> sizes_list sizes)) +:+
        " must be an item or sequence in " +:+
        py_repr (VTuple (VInt <$> valid))))).
Proof.
  intros He. rewrite dtype_factory_eq by exact He. split.
  - intros Hl. rewrite checked_sizes_empty by exact Hl. reflexivity.
  - intros Hne Hbad.
    assert (Hall : forallb (fun s => existsb (Z.eqb s) valid)
                     (sizes_list sizes) = false).
    { apply not_true_is_false. rewrite forallb_existsb_In.
      intros Hall. apply Exists_exists in Hbad as (s & Hs & Hbad).
      rewrite Forall_forall in Hall. apply Hbad, Hall, Hs. }
    unfold checked_sizes.
    change (match sizes with SizesInt n => [n] | SizesSeq l => l end)
      with (sizes_list sizes).
    rewrite Hall.
    assert (Hfmt :
      format "Invalid sizes: was {} must be an item or sequence in {}"
        [VTuple (VInt <$> sizes_list sizes); VTuple (VInt <$> valid)] [] =
      Ok ("Invalid sizes: was " +:+
          py_repr (VTuple (VInt <$> sizes_list sizes)) +:+
          " must be an item or sequence in " +:+
          py_repr (VTuple (VInt <$> valid)))).
    { apply (format_two_fields "Invalid sizes: was "
               " must be an item or sequence in "); reflexivity. }
    assert (Htruthy : truthy (VTuple (VInt <$> sizes_list sizes)) = true).
    { destruct (sizes_list sizes); [contradiction | reflexivity]. }
    rewrite (call_check_argument_truthy _ _ [] Htruthy).
    rewrite call_check_argument_false, Hfmt. reflexivity.
Qed.

Lemma sizes_check_messages_witness :
  dtype_factory "u" (SizesInt 7) (Some [8; 16; 32; 64]) "?" =
    Raise (InvalidArgument
      "Invalid sizes: was (7,) must be an item or sequence in (8, 16, 32, 64)").
Proof.
  destruct (sizes_check_messages "u" (SizesInt 7) [8; 16; 32; 64] "?")
    as (_ & H); [simpl; auto|].
  rewrite H; [reflexivity | discriminate |].
  apply Exists_cons_hd. simpl. lia.
Defined.

(** ** The dtype families *)

Lemma family_type_string c k valid s v :
  In c ["<"; ">"; "="]%char ->
  In (k, valid) numeric_families ->
  In s valid ->
  apply_fn FNpDtype (VStr (String c k +:+ str_int (s / 8))) = Ok v ->
  exists d, v = VDtype d /\ kind d = k /\ 8 * itemsize d = s.
Proof.
  intros Hc Hf Hs H.
  destruct Hc as [<-|[<-|[<-|[]]]];
    destruct Hf as [Hf|[Hf|[Hf|[Hf|[]]]]]; inversion Hf; subst; clear Hf;
    repeat (destruct Hs as [<-|Hs]; [vm_compute in H; inversion H; subst;
                                     eexists; repeat split; reflexivity|]);
    destruct Hs.
Qed.

Lemma family_brace_free k valid :
  In (k, valid) numeric_families -> brace_free k = true.
Proof.
  intros [Hf|[Hf|[Hf|[Hf|[]]]]]; inversion Hf; reflexivity.
Qed.

Lemma family_draws k valid endianness sizes g v :
  In (k, valid) numeric_families ->
  In endianness valid_endian ->
  defines_dtype_strategy (dtype_factory k sizes (Some valid) endianness)
    = Ok g ->
  draws g v ->
  exists d, v = VDtype d /\ kind d = k /\
            In (8 * itemsize d) (sizes_list sizes).
Proof.
  intros Hf He Hg Hv.
  pose proof (family_brace_free k valid Hf) as Hk.
  unfold defines_dtype_strategy, defines_strategy in Hg.
  rewrite dtype_factory_eq in Hg by exact He.
  apply bind_ok in Hg as (s & Hs & Hg).
  apply bind_ok in Hs as (l & Hl & Hs).
  inversion Hg; subst g. inversion Hs; subst s. clear Hg Hs.
  apply checked_sizes_ok in Hl as (_ & Hall & ->).
  rewrite Forall_forall in Hall.
  apply draws_map_inv in Hv as (x & Hx & Hv).
  assert (Hstr : exists c b,
            In c ["<"; ">"; "="]%char /\
            In b (sorted_set (map (fun s => s / 8) (sizes_list sizes))) /\
            x = VStr (String c k +:+ str_int b)).
  { destruct He as [<-|[<-|[<-|[<-|[]]]]].
    - rewrite formatted_either in Hx.
      apply draws_one_of_inv in Hx as (s & Hs & Hx).
      destruct Hs as [<-|[<-|[]]].
      + apply (draws_formatted_brace_free k _ "<") in Hx as (b & Hb & ->);
          [|exact Hk|simpl; auto].
        exists "<"%char, b. simpl. auto.
      + apply (draws_formatted_brace_free k _ ">") in Hx as (b & Hb & ->);
          [|exact Hk|simpl; auto].
        exists ">"%char, b. simpl. auto.
    - apply (draws_formatted_brace_free k _ "<") in Hx as (b & Hb & ->);
        [|exact Hk|simpl; auto].
      exists "<"%char, b. simpl. auto.
    - apply (draws_formatted_brace_free k _ "=") in Hx as (b & Hb & ->);
        [|exact Hk|simpl; auto].
      exists "="%char, b. simpl. auto.
    - apply (draws_formatted_brace_free k _ ">") in Hx as (b & Hb & ->);
        [|exact Hk|simpl; auto].
      exists ">"%char, b. simpl. auto. }
  destruct Hstr as (c & b & Hc & Hb & ->).
  apply sorted_set_In, in_map_iff in Hb as (s & <- & Hs).
  destruct (family_type_string c k valid s v Hc Hf) as (d & -> & Hkind & Hd);
    [apply Hall; now apply list_elem_of_In | exact Hv |].
  exists d. rewrite Hd. auto.
Qed.

(** X14.  The dtypes [integer_dtypes], [floating_dtypes] and
    [complex_number_dtypes] draw have the kind of the family, ['i'], ['f']
    or ['c'], and an item size that is one of the sizes asked for, in
    bytes. *)
Theorem numeric_dtypes_draws endianness sizes g v :
  In endianness valid_endian ->
  draws g v ->
  (integer_dtypes endianness sizes = Ok g ->
   exists d, v = VDtype d /\ kind d = "i" /\
             In (8 * itemsize d) (sizes_list sizes)) /\
  (floating_dtypes endianness sizes = Ok g ->
   exists d, v = VDtype d /\ kind d = "f" /\
             In (8 * itemsize d) (sizes_list sizes)) /\
  (complex_number_dtypes endianness sizes = Ok g ->
   exists d, v = VDtype d /\ kind d = "c" /\
             In (8 * itemsize d) (sizes_list sizes)).
Proof.
  intros He Hv. repeat split; intros Hg.
  - apply (family_draws "i" [8; 16; 32; 64] endianness sizes g v);
      [simpl; auto | exact He | exact Hg | exact Hv].
  - apply (family_draws "f" [16; 32; 64; 96; 128] endianness sizes g v);
      [simpl; auto | exact He | exact Hg | exact Hv].
  - apply (family_draws "c" [64; 128; 192; 256] endianness sizes g v);
      [simpl; auto | exact He | exact Hg | exact Hv].
Qed.

Lemma numeric_dtypes_draws_witness :
  exists d,
    VDtype {| kind := "f"; itemsize := 4; name := "float32" |} = VDtype d /\
    kind d = "f" /\ In (8 * itemsize d) [32].
Proof.
  destruct (numeric_dtypes_draws "<" (SizesSeq [32])
              (Map FNpDtype (Map (FFormat "<f{}") (SampledFrom [VInt 4])))
              (VDtype {| kind := "f"; itemsize := 4; name := "float32" |}))
    as (_ & H & _).
  - simpl. auto.
  - apply (draws_map FNpDtype _ (VStr "<f4")); [|reflexivity].
    apply (draws_map (FFormat "<f{}") _ (VInt 4)); [|reflexivity].
    apply draws_sampled. simpl. auto.
  - apply H. reflexivity.
Defined.

Lemma draws_boolean_dtypes v :
  draws (Map FNpDtype (Just (VStr "?"))) v <-> v = VDtype bool_dtype.
Proof.
  split.
  - intros H. apply draws_map_inv in H as (x & Hx & Hv).
    inversion Hx; subst. vm_compute in Hv. now inversion Hv.
  - intros ->. apply (draws_map FNpDtype _ (VStr "?")); [|reflexivity].
    apply draws_just.
Qed.

(** X15.  [boolean_dtypes] draws the boolean dtype and nothing else. *)
Theorem boolean_dtypes_draws :
  exists g, boolean_dtypes = Ok g /\
    forall v, draws g v <-> v = VDtype bool_dtype.
Proof.
  exists (Map FNpDtype (Just (VStr "?"))). split; [reflexivity|].
  apply draws_boolean_dtypes.
Qed.

Lemma scalar_dtypes_inv g v :
  scalar_dtypes = Ok g ->
  draws g v ->
  exists d, v = VDtype d /\
    ((kind d = "b" /\ itemsize d = 1) \/
     (kind d = "i" /\ In (itemsize d) [1; 2; 4; 8]) \/
     (kind d = "u" /\ In (itemsize d) [1; 2; 4; 8]) \/
     (kind d = "f" /\ In (itemsize d) [2; 4; 8]) \/
     (kind d = "c" /\ In (itemsize d) [8; 16])).
Proof.
  intros Hg Hv. unfold scalar_dtypes, defines_strategy in Hg.
  apply bind_ok in Hg as (gb & Hb & Hg).
  apply bind_ok in Hg as (gi & Hi & Hg).
  apply bind_ok in Hg as (gu & Hu & Hg).
  apply bind_ok in Hg as (gf & Hf & Hg).
  apply bind_ok in Hg as (gc & Hc & Hg).
  inversion Hg; subst g. clear Hg.
  apply draws_one_of_inv in Hv as (s & Hs & Hv).
  destruct Hs as [<-|[<-|[<-|[<-|[<-|[]]]]]].
  - inversion Hb; subst gb.
    apply draws_boolean_dtypes in Hv as ->.
    exists bool_dtype. split; [reflexivity|]. left. split; reflexivity.
  - destruct (family_draws "i" [8; 16; 32; 64] default_endianness
                default_integer_sizes gi v)
      as (d & -> & Hk & Hd);
      [simpl; auto | simpl; auto | exact Hi | exact Hv |].
    exists d. split; [reflexivity|]. right; left. split; [exact Hk|].
    simpl in *. lia.
  - destruct (family_draws "u" [8; 16; 32; 64] default_endianness
                default_integer_sizes gu v)
      as (d & -> & Hk & Hd);
      [simpl; auto | simpl; auto | exact Hu | exact Hv |].
    exists d. split; [reflexivity|]. right; right; left.
    split; [exact Hk|]. simpl in *. lia.
  - destruct (family_draws "f" [16; 32; 64; 96; 128] default_endianness
                default_floating_sizes gf v)
      as (d & -> & Hk & Hd);
      [simpl; auto | simpl; auto | exact Hf | exact Hv |].
    exists d. split; [reflexivity|]. right; right; right; left.
    split; [exact Hk|]. simpl in *. lia.
  - destruct (family_draws "c" [64; 128; 192; 256] default_endianness
                default_complex_sizes gc v)
      as (d & -> & Hk & Hd);
      [simpl; auto | simpl; auto | exact Hc | exact Hv |].
    exists d. split; [reflexivity|]. right; right; right; right.
    split; [exact Hk|]. simpl in *. lia.
Qed.

(** X16.  [scalar_dtypes] always builds its strategy: its default
    arguments pass every check.  What it draws is a boolean dtype of one
    byte, or a signed or unsigned integer dtype of 1, 2, 4 or 8 bytes, or a
    float dtype of 2, 4 or 8 bytes, or a complex dtype of 8 or 16 bytes;
    and a dtype of each of the five kinds is drawn. *)
Theorem scalar_dtypes_draws :
  exists g, scalar_dtypes = Ok g /\
    (forall v, draws g v ->
       exists d, v = VDtype d /\
         ((kind d = "b" /\ itemsize d = 1) \/
          (kind d = "i" /\ In (itemsize d) [1; 2; 4; 8]) \/
          (kind d = "u" /\ In (itemsize d) [1; 2; 4; 8]) \/
          (kind d = "f" /\ In (itemsize d) [2; 4; 8]) \/
          (kind d = "c" /\ In (itemsize d) [8; 16]))) /\
    (forall k, In k ["b"; "i"; "u"; "f"; "c"] ->
       exists d, draws g (VDtype d) /\ kind d = k).
Proof.
  destruct scalar_dtypes as [g|e] eqn:Hg; [|vm_compute in Hg; discriminate].
  exists g. split; [reflexivity|]. split.
  - intros v Hv. exact (scalar_dtypes_inv g v Hg Hv).
  - vm_compute in Hg. inversion Hg; subst g. clear Hg.
    intros k Hk.
    destruct Hk as [<-|[<-|[<-|[<-|[<-|[]]]]]].
    + exists bool_dtype. split; [|reflexivity].
      eapply draws_one_of; [left; reflexivity|].
      apply (draws_map FNpDtype _ (VStr "?")); [|reflexivity].
      apply draws_just.
    + exists int8. split; [|reflexivity].
      eapply draws_one_of; [right; left; reflexivity|].
      apply (draws_map FNpDtype _ (VStr "<i1")); [|reflexivity].
      eapply draws_one_of; [left; reflexivity|].
      apply (draws_map (FFormat "<i{}") _ (VInt 1)); [|reflexivity].
      apply draws_sampled. simpl. auto.
    + exists uint8. split; [|reflexivity].
      eapply draws_one_of; [right; right; left; reflexivity|].
      apply (draws_map FNpDtype _ (VStr "<u1")); [|reflexivity].
      eapply draws_one_of; [left; reflexivity|].
      apply (draws_map (FFormat "<u{}") _ (VInt 1)); [|reflexivity].
      apply draws_sampled. simpl. auto.
    + exists {| kind := "f"; itemsize := 2; name := "float16" |}.
      split; [|reflexivity].
      eapply draws_one_of; [right; right; right; left; reflexivity|].
      apply (draws_map FNpDtype _ (VStr "<f2")); [|reflexivity].
      eapply draws_one_of; [left; reflexivity|].
      apply (draws_map (FFormat "<f{}") _ (VInt 2)); [|reflexivity].
      apply draws_sampled. simpl. auto.
    + exists {| kind := "c"; itemsize := 8; name := "complex64" |}.
      split; [|reflexivity].
      eapply draws_one_of; [right; right; right; right; left; reflexivity|].
      apply (draws_map FNpDtype _ (VStr "<c8")); [|reflexivity].
      eapply draws_one_of; [left; reflexivity|].
      apply (draws_map (FFormat "<c{}") _ (VInt 8)); [|reflexivity].
      apply draws_sampled. simpl. auto.
Qed.

(** ** Dtypes drawn by [scalar_dtypes], given to [arrays] *)




(** ** Shapes of the same size *)


